(** * Hybrid retrieval engine: vector store + graph store

    A shallow embedding of the Go services ([pkg/services]: [AddDocument],
    [AddTokenAndTriplets], [extractTokensAndTriplets], [SearchDocuments],
    [GetEmbedding], [GenerateResponse]) and of the gin handlers
    ([AddDocuments], [Query], [UploadDocumentGin]).

    Everything the Go code reaches over the network or through a
    subprocess (Gemini, PostgreSQL, Neo4j, the Python extractor) is an
    oracle of the environment [Env], indexed by the number of external
    calls made so far, so that any call may fail independently of the
    others.  The two stores are explicit state in [World]. *)

From Stdlib Require Import ZArith Ascii String.
From stdpp Require Import base list strings gmap.

Local Open Scope Z_scope.

(** ** Go values *)

(** A Go [error] is carried by its message ([err.Error()]); a nil error is
    [None]. *)
Definition error : Type := string.

(** [float32]: carried as its 32-bit pattern.  No function of the
    repository does arithmetic on embeddings; they are only passed on. *)
Definition float32 : Type := Z.

(** [[]float32].  The nil slice and the empty slice are both [[]]. *)
Definition Embedding : Type := list float32.

Definition newline : string := String (ascii_of_nat 10) EmptyString.

(** [len(s)] of a Go string: its number of bytes. *)
Definition len (s : string) : Z := Z.of_nat (String.length s).

(** *** [strings.TrimSpace]

    Go strips, on both sides, every rune for which [unicode.IsSpace]
    holds.  On the UTF-8 bytes these are the six ASCII blanks, U+0085 and
    U+00A0 (two bytes), and U+1680, U+2000..U+200A, U+2028, U+2029,
    U+202F, U+205F, U+3000 (three bytes). *)
Definition asciiSpace (c : ascii) : bool :=
  let n := nat_of_ascii c in
  ((9 <=? n) && (n <=? 13))%nat || (n =? 32)%nat.

Definition space2 (c1 c2 : ascii) : bool :=
  let a := nat_of_ascii c1 in
  let b := nat_of_ascii c2 in
  ((a =? 194) && ((b =? 133) || (b =? 160)))%nat.

Definition space3 (c1 c2 c3 : ascii) : bool :=
  let a := nat_of_ascii c1 in
  let b := nat_of_ascii c2 in
  let c := nat_of_ascii c3 in
  (((a =? 225) && (b =? 154) && (c =? 128))
   || ((a =? 226) && (b =? 128)
       && (((128 <=? c) && (c <=? 138)) || (c =? 168) || (c =? 169) || (c =? 175)))
   || ((a =? 226) && (b =? 129) && (c =? 159))
   || ((a =? 227) && (b =? 128) && (c =? 128)))%nat.

(** Strips leading blanks; [sp2] and [sp3] recognise the multi-byte
    blanks in the order the bytes are met. *)
Fixpoint trimFront (sp2 : ascii -> ascii -> bool)
    (sp3 : ascii -> ascii -> ascii -> bool) (s : string) : string :=
  match s with
  | EmptyString => s
  | String c1 r1 =>
      if asciiSpace c1 then trimFront sp2 sp3 r1
      else
        match r1 with
        | EmptyString => s
        | String c2 r2 =>
            if sp2 c1 c2 then trimFront sp2 sp3 r2
            else
              match r2 with
              | EmptyString => s
              | String c3 r3 =>
                  if sp3 c1 c2 c3 then trimFront sp2 sp3 r3 else s
              end
        end
  end.

Definition TrimLeftSpace (s : string) : string := trimFront space2 space3 s.

Definition TrimRightSpace (s : string) : string :=
  String.rev
    (trimFront (fun a b => space2 b a) (fun a b c => space3 c b a)
       (String.rev s)).

Definition TrimSpace (s : string) : string := TrimRightSpace (TrimLeftSpace s).

(** *** [strings.Split(s, " ")]: the pieces between single blanks, empty
    pieces included; never the empty list. *)
Fixpoint Split (s : string) : list string :=
  match s with
  | EmptyString => [EmptyString]
  | String c rest =>
      if Ascii.eqb c " "%char then EmptyString :: Split rest
      else
        match Split rest with
        | [] => [String c EmptyString]
        | piece :: pieces => String c piece :: pieces
        end
  end.

(** ** Data model *)

(** A row of the PostgreSQL table [documents (id, content, embedding)]. *)
Record Row : Type := mkRow {
  row_id : Z;
  row_content : string;
  row_embedding : Embedding
}.

Record Triplet : Type := mkTriplet {
  Subject : string;
  Predicate : string;
  Object : string
}.

(** The Neo4j store.  [MERGE] makes a [Token] unique by its name, a
    [Document] node unique by the pair (id, content), a [CONTAINS] edge
    unique by its two ends and a [PREDICATE] edge unique by
    (subject, name, object). *)
Record Graph : Type := mkGraph {
  Documents : gset (Z * string);
  Tokens : gmap string Embedding;
  Contains : gset (string * (Z * string));
  Predicates : gmap (string * string * string) Embedding
}.

Definition emptyGraph : Graph :=
  {| Documents := ∅; Tokens := ∅; Contains := ∅; Predicates := ∅ |}.

(** The four Cypher statements of the repository, with their parameters. *)
Inductive Cypher : Type :=
| MergeDocument (docID : Z) (content : string)
| MergeTokenContains (name : string) (embedding : Embedding) (docID : Z)
| MergeTriplet (subject : string) (subjectEmb : Embedding)
    (predicate : string) (predicateEmb : Embedding)
    (object : string) (objectEmb : Embedding)
| QueryNodes (queryEmbedding : Embedding).

(** External calls, in the order they are made. *)
Inductive Event : Type :=
| EvEmbedContent (text : string)
| EvGenerateContent (prompt : string)
| EvInsert (content : string) (embedding : Embedding)
| EvSelect (queryEmbedding : Embedding)
| EvExtract (content : string)
| EvCypher (stmt : Cypher).

(** What an HTTP exchange with Gemini comes to: [http.Post] fails,
    reading the body fails, or a response arrives, carried with what
    [json.Unmarshal] makes of its body. *)
Inductive HttpExchange (A : Type) : Type :=
| PostFailed (err : error)
| ReadFailed (err : error)
| Responded (StatusCode : Z) (Status : string) (respBody : string)
    (unmarshalled : A + error).
Arguments PostFailed {A} err.
Arguments ReadFailed {A} err.
Arguments Responded {A} StatusCode Status respBody unmarshalled.

(** What running [python3 extract_triplets.py] comes to. *)
Inductive Extraction : Type :=
| RunFailed
| BadOutput
| Extracted (tokens : list string) (triplets : list Triplet).

(** The environment: configuration read at start-up and the behaviour of
    the collaborators.  The [nat] is the number of external calls made
    before this one. *)
Record Env : Type := mkEnv {
  GEMINI_API_KEY : string;
  neo4jDriver : bool;  (* false: [neo4jDriver == nil], NEO4J_URI unset *)
  embedContent : nat -> string -> HttpExchange Embedding;
  generateContent : nat -> string -> HttpExchange (list (list string));
  pgFault : nat -> option error;
  (* [ranksBefore q r1 r2]: the index on [documents.embedding] ranks
     [r1] before [r2] for the query vector [q]. *)
  ranksBefore : Embedding -> Row -> Row -> bool;
  neo4jFault : nat -> option error;
  extractTriplets : nat -> string -> Extraction;
  (* names of the Token nodes [vector_index_token] yields, best first *)
  vectorIndexToken : Embedding -> gmap string Embedding -> list string
}.

(** The mutable state: both stores and the trace of external calls. *)
Record World : Type := mkWorld {
  documents : list Row;     (* table [documents], in insertion order *)
  documents_id_seq : Z;     (* last id given out by [SERIAL] *)
  neo : Graph;
  trace : list Event
}.

Definition initWorld : World :=
  {| documents := []; documents_id_seq := 0; neo := emptyGraph; trace := [] |}.

Definition now (w : World) : nat := length (trace w).

Definition emit (ev : Event) (w : World) : World :=
  {| documents := documents w; documents_id_seq := documents_id_seq w;
     neo := neo w; trace := trace w ++ [ev] |}.

(** ** A state monad over [World] *)

Definition M (A : Type) : Type := World -> A * World.

#[global] Instance M_ret : MRet M := fun A a w => (a, w).

#[global] Instance M_bind : MBind M :=
  fun A B k m w => let (a, w') := m w in k a w'.

Definition ret {A} (a : A) : M A := mret a.

(** ** The services *)

Section Services.
Variable env : Env.

(** *** Gemini client *)

(** [GetEmbedding(text)].  Every failing path returns the nil slice
    together with the error.  ([json.Marshal] of a payload of strings
    does not fail; that branch is left out.) *)
Definition GetEmbedding (text : string) : M (Embedding * option error) :=
  fun w =>
    if String.eqb (GEMINI_API_KEY env) "" then
      (([], Some "GEMINI_API_KEY environment variable not set"%string), w)
    else
      let w' := emit (EvEmbedContent text) w in
      match embedContent env (now w) text with
      | PostFailed err =>
          (([], Some ("failed to send request to Gemini API: " +:+ err)), w')
      | ReadFailed err =>
          (([], Some ("failed to read response body: " +:+ err)), w')
      | Responded StatusCode Status respBody unmarshalled =>
          if negb (StatusCode =? 200) then
            (([], Some ("Gemini API embedding request failed with status "
                        +:+ Status +:+ ": " +:+ respBody)), w')
          else
            match unmarshalled with
            | inr err =>
                (([], Some ("failed to unmarshal response: " +:+ err)), w')
            | inl values =>
                if (length values =? 0)%nat then
                  (([], Some "empty embedding returned from Gemini API"%string), w')
                else ((values, None), w')
            end
      end.

Definition prompt_of (query context : string) : string :=
  "Контекст: " +:+ context +:+ newline +:+ "Вопрос: " +:+ query +:+ newline
  +:+ "Ответь на вопрос, используя контекст.".

(** [GenerateResponse(query, context)]; the decoded body is the list of
    candidates, each the list of the texts of its parts. *)
Definition GenerateResponse (query context : string) : M (string * option error) :=
  fun w =>
    if String.eqb (GEMINI_API_KEY env) "" then
      ((""%string, Some "GEMINI_API_KEY environment variable not set"%string), w)
    else
      let prompt := prompt_of query context in
      let w' := emit (EvGenerateContent prompt) w in
      match generateContent env (now w) prompt with
      | PostFailed err =>
          ((""%string, Some ("failed to send request to Gemini API: " +:+ err)), w')
      | ReadFailed err =>
          ((""%string, Some ("failed to read response body: " +:+ err)), w')
      | Responded StatusCode Status respBody unmarshalled =>
          if negb (StatusCode =? 200) then
            ((""%string, Some ("Gemini API generate request failed with status "
                        +:+ Status +:+ ": " +:+ respBody)), w')
          else
            match unmarshalled with
            | inr err =>
                ((""%string, Some ("failed to unmarshal response: " +:+ err)), w')
            | inl ((Text :: _) :: _) => ((Text, None), w')
            | inl _ =>
                ((""%string, Some "no valid response from Gemini API"%string), w')
            end
      end.

(** *** PostgreSQL *)

(** [INSERT INTO documents (content, embedding) VALUES ($1, $2)
    RETURNING id], scanned into [docID].  [pgFault] stands for every
    reason the statement or the scan may fail (connection, a vector
    that is not of dimension 768); then no row is added and [docID]
    keeps its zero value. *)
Definition insertDocument (content : string) (embedding : Embedding)
  : M (Z * option error) :=
  fun w =>
    match pgFault env (now w) with
    | Some err => ((0, Some err), emit (EvInsert content embedding) w)
    | None =>
        let docID := documents_id_seq w + 1 in
        ((docID, None),
         {| documents := documents w ++ [mkRow docID content embedding];
            documents_id_seq := docID;
            neo := neo w;
            trace := trace w ++ [EvInsert content embedding] |})
    end.

(** The row [ORDER BY embedding <-> $1 LIMIT 1] keeps. *)
Fixpoint nearest (q : Embedding) (rows : list Row) : option Row :=
  match rows with
  | [] => None
  | r :: rest =>
      match nearest q rest with
      | Some r' => if ranksBefore env q r' r then Some r' else Some r
      | None => Some r
      end
  end.

(** [SELECT content FROM documents ORDER BY embedding <-> $1 LIMIT 1],
    scanned into [pgContent]; scanning an empty result is
    [pgx.ErrNoRows]. *)
Definition selectNearest (queryEmbedding : Embedding)
  : M (string * option error) :=
  fun w =>
    let w' := emit (EvSelect queryEmbedding) w in
    match pgFault env (now w) with
    | Some err => ((""%string, Some err), w')
    | None =>
        match nearest queryEmbedding (documents w) with
        | Some r => ((row_content r, None), w')
        | None => ((""%string, Some "no rows in result set"%string), w')
        end
    end.

(** *** Neo4j *)

(** [MERGE (t:Token {name: $name}) ON CREATE SET t.embedding = $embedding] *)
Definition mergeToken (name : string) (embedding : Embedding)
    (tokens : gmap string Embedding) : gmap string Embedding :=
  match tokens !! name with
  | Some _ => tokens
  | None => <[name := embedding]> tokens
  end.

(** [MERGE (s)-[r:PREDICATE {name: $predicate}]->(o)
     ON CREATE SET r.embedding = $predicateEmb] *)
Definition mergePredicate (key : string * string * string)
    (embedding : Embedding)
    (edges : gmap (string * string * string) Embedding)
  : gmap (string * string * string) Embedding :=
  match edges !! key with
  | Some _ => edges
  | None => <[key := embedding]> edges
  end.

(** [MATCH (d:Document {id: $docID})] *)
Definition matchDocument (docID : Z) (g : Graph) : gset (Z * string) :=
  filter (fun d => d.1 = docID) (Documents g).

(** The effect of a statement on the store. *)
Definition execCypher (stmt : Cypher) (g : Graph) : Graph :=
  match stmt with
  | MergeDocument docID content =>
      {| Documents := {[ (docID, content) ]} ∪ Documents g;
         Tokens := Tokens g; Contains := Contains g;
         Predicates := Predicates g |}
  | MergeTokenContains name embedding docID =>
      {| Documents := Documents g;
         Tokens := mergeToken name embedding (Tokens g);
         Contains :=
           set_map (fun d => (name, d)) (matchDocument docID g) ∪ Contains g;
         Predicates := Predicates g |}
  | MergeTriplet subject subjectEmb predicate predicateEmb object objectEmb =>
      {| Documents := Documents g;
         Tokens :=
           mergeToken object objectEmb (mergeToken subject subjectEmb (Tokens g));
         Contains := Contains g;
         Predicates :=
           mergePredicate (subject, predicate, object) predicateEmb
             (Predicates g) |}
  | QueryNodes _ => g
  end.

(** [MATCH (token)-[:CONTAINS]->(doc:Document) RETURN doc.content] *)
Definition containedIn (token : string) (g : Graph) : list string :=
  (fun e => e.2.2) <$> filter (fun e => e.1 = token) (elements (Contains g)).

(** The records a statement returns; only the search returns any:
    the ten best tokens of the index, expanded along CONTAINS,
    [LIMIT 1]. *)
Definition records (stmt : Cypher) (g : Graph) : list string :=
  match stmt with
  | QueryNodes queryEmbedding =>
      take 1
        (flat_map (fun token => containedIn token g)
           (take 10 (vectorIndexToken env queryEmbedding (Tokens g))))
  | _ => []
  end.

(** [session.Run(ctx, stmt, params)] in its own auto-commit session:
    the statement takes effect as a whole or fails as a whole. *)
Definition session_Run (stmt : Cypher) : M (list string * option error) :=
  fun w =>
    match neo4jFault env (now w) with
    | Some err => (([], Some err), emit (EvCypher stmt) w)
    | None =>
        ((records stmt (neo w), None),
         {| documents := documents w;
            documents_id_seq := documents_id_seq w;
            neo := execCypher stmt (neo w);
            trace := trace w ++ [EvCypher stmt] |})
    end.

(** *** Ingestion *)

(** [extractTokensAndTriplets(content)] *)
Definition extractTokensAndTriplets (content : string)
  : M (list string * list Triplet) :=
  fun w =>
    let w' := emit (EvExtract content) w in
    match extractTriplets env (now w) content with
    | RunFailed => ((Split content, []), w')
    | BadOutput => ((Split content, []), w')
    | Extracted tokens triplets => ((tokens, triplets), w')
    end.

(** The body of the loop [for _, token := range tokens]: [Some e] when
    it leaves the function with [return err]. *)
Definition tokenBody (docID : Z) (token : string) : M (option error) :=
  '(tokenEmbedding, err) ← GetEmbedding token;
  match err with
  | Some e => ret (Some e)
  | None =>
      '(_, err) ← session_Run (MergeTokenContains token tokenEmbedding docID);
      ret err
  end.

Fixpoint tokenLoop (docID : Z) (tokens : list string) : M (option error) :=
  match tokens with
  | [] => ret None
  | token :: rest =>
      err ← tokenBody docID token;
      match err with
      | Some e => ret (Some e)
      | None => tokenLoop docID rest
      end
  end.

(** The body of the loop [for _, triplet := range triplets]; the
    errors of the three [GetEmbedding] calls are dropped ([_]). *)
Definition tripletBody (triplet : Triplet) : M (option error) :=
  '(subjectEmb, _) ← GetEmbedding (Subject triplet);
  '(predicateEmb, _) ← GetEmbedding (Predicate triplet);
  '(objectEmb, _) ← GetEmbedding (Object triplet);
  '(_, err) ← session_Run
                (MergeTriplet (Subject triplet) subjectEmb
                   (Predicate triplet) predicateEmb
                   (Object triplet) objectEmb);
  ret err.

Fixpoint tripletLoop (triplets : list Triplet) : M (option error) :=
  match triplets with
  | [] => ret None
  | triplet :: rest =>
      err ← tripletBody triplet;
      match err with
      | Some e => ret (Some e)
      | None => tripletLoop rest
      end
  end.

(** [AddTokenAndTriplets(content, embedding, docID)].  It dereferences
    [neo4jDriver]; its only caller checks that it is not nil. *)
Definition AddTokenAndTriplets (content : string) (embedding : Embedding)
    (docID : Z) : M (option error) :=
  '(tokens, triplets) ← extractTokensAndTriplets content;
  '(_, err) ← session_Run (MergeDocument docID content);
  match err with
  | Some e => ret (Some e)
  | None =>
      err ← tokenLoop docID tokens;
      match err with
      | Some e => ret (Some e)
      | None => tripletLoop triplets
      end
  end.

(** [AddDocument(content, embedding)] *)
Definition AddDocument (content : string) (embedding : Embedding)
  : M (option error) :=
  '(docID, err) ← insertDocument content embedding;
  match err with
  | Some e => ret (Some e)
  | None =>
      if neo4jDriver env then AddTokenAndTriplets content embedding docID
      else ret None
  end.

(** *** Retrieval *)

(** [SearchDocuments(queryEmbedding, useGraph)] *)
Definition SearchDocuments (queryEmbedding : Embedding) (useGraph : bool)
  : M (string * option error) :=
  '(pgContent, err) ← selectNearest queryEmbedding;
  match err with
  | Some e =>
      ret (""%string, Some ("failed to search documents in PostgreSQL: " +:+ e))
  | None =>
      if negb useGraph || negb (neo4jDriver env) then ret (pgContent, None)
      else
        '(result, err) ← session_Run (QueryNodes queryEmbedding);
        match err with
        | Some e =>
            ret (pgContent,
                 Some ("failed to search documents in Neo4j: " +:+ e))
        | None =>
            let neo4jContent := default ""%string (head result) in
            let context := pgContent in
            if negb (String.eqb neo4jContent "") then
              ret (context +:+ newline +:+ "Graph context: " +:+ neo4jContent,
                   None)
            else ret (context, None)
        end
  end.

End Services.

(** ** The handlers *)

(** The body [gin.H{...}] of a reply. *)
Inductive H : Type :=
| H_error (msg : string)
| H_error_details (msg : string) (details : list string)
| H_message (msg : string)
| H_response (text : string).

(** [c.JSON(code, body)] *)
Record Response : Type := JSON { code : Z; body : H }.

Definition StatusOK : Z := 200.
Definition StatusBadRequest : Z := 400.
Definition StatusInternalServerError : Z := 500.

(** What [c.ShouldBindJSON(&req)] makes of the request. *)
Inductive Binding (A : Type) : Type :=
| Invalid (err : error)
| Bound (req : A).
Arguments Invalid {A} err.
Arguments Bound {A} req.

(** What [c.Request.FormFile] and [io.ReadAll] make of an upload. *)
Inductive Upload : Type :=
| NoFormFile
| UnreadableFile
| FileContent (content : string).

Inductive Request : Type :=
| POST_add (req : Binding (list string))
| POST_query (useGraph : bool) (req : Binding string)
| POST_upload (req : Upload).

Section Handlers.
Variable env : Env.

(** The body of the goroutine [go func(text string)] of
    [AddDocuments]: the message it appends to [errors], if any. *)
Definition ingest (text : string) : M (option error) :=
  '(embedding, err) ← GetEmbedding env text;
  match err with
  | Some e => ret (Some e)
  | None => AddDocument env text embedding
  end.

(** The loop of [AddDocuments] up to [wg.Wait()]: each document is
    checked and its goroutine launched before the next document is
    looked at.  [inl]: the loop ran to its end; [inr]: it returned at a
    document that is too short.  Either way the texts of the goroutines
    launched so far are given. *)
Fixpoint launchLoop (docs : list string) (launched : list string)
  : list string + list string :=
  match docs with
  | [] => inl launched
  | Text :: rest =>
      let trimmedText := TrimSpace Text in
      if len trimmedText <? 5 then inr launched
      else launchLoop rest (launched ++ [trimmedText])
  end.

(** The goroutines, each run to its end, one after the other in the
    order of launch; [errors] is the slice they append to under the
    mutex.  How the store operations of different goroutines interleave
    is not modelled.  The code fixes no order among them ([go func],
    [wg.Wait]): this is one schedule, and whatever is stated below of
    the rows or of the messages of several goroutines is stated up to
    their order. *)
Fixpoint runGoroutines (launched : list string) (errors : list string)
  : M (list string) :=
  match launched with
  | [] => ret errors
  | text :: rest =>
      err ← ingest text;
      runGoroutines rest
        (match err with Some e => errors ++ [e] | None => errors end)
  end.

(** [AddDocuments(c)]: the reply, and the goroutines that are still
    running when the handler returns without waiting for them. *)
Definition AddDocuments (req : Binding (list string))
  : M (Response * list string) :=
  match req with
  | Invalid err =>
      ret (JSON StatusBadRequest (H_error ("Invalid request: " +:+ err)), [])
  | Bound Documents_ =>
      if (length Documents_ =? 0)%nat then
        ret (JSON StatusBadRequest
               (H_error "Documents list cannot be empty"), [])
      else
        match launchLoop Documents_ [] with
        | inr launched =>
            ret (JSON StatusBadRequest
                   (H_error "Document text must be at least 5 characters long"),
                 launched)
        | inl launched =>
            errors ← runGoroutines launched [];
            if (0 <? length errors)%nat then
              ret (JSON StatusInternalServerError
                     (H_error_details "Failed to process some documents" errors),
                   [])
            else
              ret (JSON StatusOK (H_message "Documents added successfully"), [])
        end
  end.

(** [Query(c)].  The handler calls [SearchDocuments] with the embedding
    only; the flag of the service's signature is a parameter here. *)
Definition Query (useGraph : bool) (req : Binding string) : M Response :=
  match req with
  | Invalid err =>
      ret (JSON StatusBadRequest (H_error ("Invalid request: " +:+ err)))
  | Bound Query_ =>
      let trimmedQuery := TrimSpace Query_ in
      if len trimmedQuery <? 3 then
        ret (JSON StatusBadRequest
               (H_error "Query must be at least 3 characters long"))
      else
        '(embedding, err) ← GetEmbedding env trimmedQuery;
        match err with
        | Some e =>
            ret (JSON StatusInternalServerError
                   (H_error ("Failed to get query embedding: " +:+ e)))
        | None =>
            '(context, err) ← SearchDocuments env embedding useGraph;
            match err with
            | Some e =>
                ret (JSON StatusInternalServerError
                       (H_error ("Failed to search documents: " +:+ e)))
            | None =>
                '(response, err) ← GenerateResponse env trimmedQuery context;
                match err with
                | Some e =>
                    ret (JSON StatusInternalServerError
                           (H_error ("Failed to generate response: " +:+ e)))
                | None => ret (JSON StatusOK (H_response response))
                end
            end
        end
  end.

(** [UploadDocumentGin(c)] *)
Definition UploadDocumentGin (req : Upload) : M Response :=
  match req with
  | NoFormFile =>
      ret (JSON StatusBadRequest (H_error "Failed to read file"))
  | UnreadableFile =>
      ret (JSON StatusInternalServerError (H_error "Failed to read content"))
  | FileContent content =>
      '(embedding, err) ← GetEmbedding env content;
      match err with
      | Some e =>
          ret (JSON StatusInternalServerError
                 (H_error ("Failed to generate embedding: " +:+ e)))
      | None =>
          err ← AddDocument env content embedding;
          match err with
          | Some e =>
              ret (JSON StatusInternalServerError
                     (H_error ("Failed to save document: " +:+ e)))
          | None =>
              ret (JSON StatusOK (H_message "Document uploaded successfully"))
          end
      end
  end.

(** One request served: the handler, then whatever goroutines it left
    running. *)
Definition serve (r : Request) : M Response :=
  match r with
  | POST_add req =>
      '(resp, detached) ← AddDocuments req;
      _ ← runGoroutines detached [];
      ret resp
  | POST_query useGraph req => Query useGraph req
  | POST_upload req => UploadDocumentGin req
  end.

(** The states the server can be in: it starts with both stores empty
    and serves requests. *)
Inductive reachable : World -> Prop :=
| reachable_init : reachable initWorld
| reachable_serve (w : World) (r : Request) :
    reachable w -> reachable (serve r w).2.

End Handlers.

(** ** Environments used in the examples *)

Definition unitEmbedding : Embedding := replicate 768 1.

Definition gemini200 {A} (a : A) : HttpExchange A :=
  Responded 200 "200 OK" "{}" (inl a).

(** Every collaborator answers; no graph store is configured. *)
Definition envVectorOnly : Env :=
  {| GEMINI_API_KEY := "key";
     neo4jDriver := false;
     embedContent := fun _ _ => gemini200 unitEmbedding;
     generateContent := fun _ _ => gemini200 [["answer"%string]];
     pgFault := fun _ => None;
     ranksBefore := fun _ _ _ => true;
     neo4jFault := fun _ => None;
     extractTriplets := fun _ _ => RunFailed;
     vectorIndexToken := fun _ tokens => (map_to_list tokens).*1 |}.

(** The same with a graph store. *)
Definition envHybrid : Env :=
  {| GEMINI_API_KEY := "key";
     neo4jDriver := true;
     embedContent := fun _ _ => gemini200 unitEmbedding;
     generateContent := fun _ _ => gemini200 [["answer"%string]];
     pgFault := fun _ => None;
     ranksBefore := fun _ _ _ => false;
     neo4jFault := fun _ => None;
     extractTriplets := fun _ _ => RunFailed;
     vectorIndexToken := fun _ tokens => (map_to_list tokens).*1 |}.

(** The graph store is down; everything else answers. *)
Definition envGraphDown : Env :=
  {| GEMINI_API_KEY := "key";
     neo4jDriver := true;
     embedContent := fun _ _ => gemini200 unitEmbedding;
     generateContent := fun _ _ => gemini200 [["answer"%string]];
     pgFault := fun _ => None;
     ranksBefore := fun _ _ _ => true;
     neo4jFault := fun _ => Some "connection refused"%string;
     extractTriplets := fun _ _ => RunFailed;
     vectorIndexToken := fun _ tokens => (map_to_list tokens).*1 |}.

(** Gemini refuses to embed the text [bad]; a graph store is configured
    and the extractor finds one triplet in every document. *)
Definition envEmbedFails (bad : string) : Env :=
  {| GEMINI_API_KEY := "key";
     neo4jDriver := true;
     embedContent := fun _ text =>
       if String.eqb text bad then PostFailed "timeout" else gemini200 unitEmbedding;
     generateContent := fun _ _ => gemini200 [["answer"%string]];
     pgFault := fun _ => None;
     ranksBefore := fun _ _ _ => true;
     neo4jFault := fun _ => None;
     extractTriplets := fun _ content =>
       Extracted (Split content) [mkTriplet "Socrates" "teaches" "Plato"];
     vectorIndexToken := fun _ tokens => (map_to_list tokens).*1 |}.

(** Two documents ingested through [POST /add] with a graph store. *)
Definition twoDocuments : World :=
  (serve envHybrid (POST_add (Bound ["alpha beta"; "gamma delta"]%string))
     initWorld).2.

(** One document ingested while the graph store is down: its row is in
    the table, the graph is empty. *)
Definition graphDownWorld : World :=
  (serve envGraphDown (POST_add (Bound ["hello world"%string])) initWorld).2.

(** One document ingested without a graph store. *)
Definition oneDocument : World :=
  (serve envVectorOnly (POST_add (Bound ["hello world"%string])) initWorld).2.

(** One document of three tokens is submitted; Gemini refuses to embed
    the second token. *)
Definition betaRefused : Response * World :=
  serve (envEmbedFails "beta") (POST_add (Bound ["alpha beta gamma"%string]))
    initWorld.

(** A batch of two documents; Gemini refuses to embed the second. *)
Definition oneOfTwoRefused : Response * list string * World :=
  AddDocuments (envEmbedFails "second doc")
    (Bound ["hello world"; "second doc"]%string) initWorld.

(** ** Observations the statements are made of *)

(** The statements handed to [session.Run], oldest first. *)
Definition cypherCalls (t : list Event) : list Cypher :=
  omap (fun ev => match ev with EvCypher stmt => Some stmt | _ => None end) t.

(** Every Document node of the graph has a row of the same id. *)
Definition mirrored (w : World) : Prop :=
  forall (id : Z) (content : string),
    (id, content) ∈ Documents (neo w) ->
    exists r : Row, r ∈ documents w /\ row_id r = id.

(** [upserts stmt name e]: the statement merges the Token [name] and
    would create it with the embedding [e]. *)
Inductive upserts : Cypher -> string -> Embedding -> Prop :=
| upserts_token name e docID :
    upserts (MergeTokenContains name e docID) name e
| upserts_subject s se p pe o oe :
    upserts (MergeTriplet s se p pe o oe) s se
| upserts_object s se p pe o oe :
    s <> o -> upserts (MergeTriplet s se p pe o oe) o oe.

(** What each goroutine of a batch comes to, listed by launch; used
    only up to the order of the list. *)
Fixpoint goroutineOutcomes (env : Env) (launched : list string)
  : M (list (option error)) :=
  match launched with
  | [] => ret []
  | text :: rest =>
      err ← ingest env text;
      errs ← goroutineOutcomes env rest;
      ret (err :: errs)
  end.

(** The messages of the failed ones. *)
Definition failures (outcomes : list (option error)) : list error :=
  omap id outcomes.

(** How many goroutines ended without an error. *)
Definition succeeded (outcomes : list (option error)) : nat :=
  length (filter (fun o => o = None) outcomes).

(** The statements handed to [session.Run] so far. *)
Definition graphLog (w : World) : list Cypher := cypherCalls (trace w).

(** The graph store as the program sees and drives it: its content and
    the statements sent to it. *)
Definition graphSide (w : World) : Graph * list Cypher := (neo w, graphLog w).

(** The rows of the table and the Document nodes of the graph. *)
Definition docSide (w : World) : list Row * gset (Z * string) :=
  (documents w, Documents (neo w)).

(** The Token [name] is stored with the embedding [e]. *)
Definition storedAs (name : string) (e : Embedding) (w : World) : Prop :=
  Tokens (neo w) !! name = Some e.

(** The computation keeps the property [P] of the world. *)
Definition preserves {A} (P : World -> Prop) (m : M A) : Prop :=
  forall w : World, P w -> P (m w).2.

(** The computation leaves the observation [obs] of the world as it is. *)
Definition keeps {A X} (obs : World -> X) (m : M A) : Prop :=
  forall w : World, obs (m w).2 = obs w.

(** No Gemini key in the environment; everything else answers. *)
Definition envNoKey : Env :=
  {| GEMINI_API_KEY := "";
     neo4jDriver := true;
     embedContent := fun _ _ => gemini200 unitEmbedding;
     generateContent := fun _ _ => gemini200 [["answer"%string]];
     pgFault := fun _ => None;
     ranksBefore := fun _ _ _ => false;
     neo4jFault := fun _ => None;
     extractTriplets := fun _ _ => RunFailed;
     vectorIndexToken := fun _ tokens => (map_to_list tokens).*1 |}.

(** ** The elementary moves of the server *)

(** The world after a successful [INSERT]. *)
Definition inserted (content : string) (embedding : Embedding) (w : World)
  : World :=
  {| documents :=
       documents w ++ [mkRow (documents_id_seq w + 1) content embedding];
     documents_id_seq := documents_id_seq w + 1;
     neo := neo w;
     trace := trace w ++ [EvInsert content embedding] |}.

(** The world after a successful [session.Run]. *)
Definition executed (stmt : Cypher) (w : World) : World :=
  {| documents := documents w;
     documents_id_seq := documents_id_seq w;
     neo := execCypher stmt (neo w);
     trace := trace w ++ [EvCypher stmt] |}.

(** The table has a row of this id and content. *)
Definition hasRow (docID : Z) (content : string) (w : World) : Prop :=
  exists r : Row, r ∈ documents w /\ row_id r = docID /\ row_content r = content.

(** One move: an external call that changes no store; an insert of a
    row with a non-empty embedding; the merge of a Document node for a
    row that exists; any other statement. *)
Inductive step : World -> World -> Prop :=
| step_emit (w : World) (ev : Event) : step w (emit ev w)
| step_insert (w : World) (content : string) (embedding : Embedding) :
    embedding <> [] -> step w (inserted content embedding w)
| step_merge_document (w : World) (docID : Z) (content : string) :
    hasRow docID content w -> step w (executed (MergeDocument docID content) w)
| step_cypher (w : World) (stmt : Cypher) :
    (forall docID content, stmt <> MergeDocument docID content) ->
    step w (executed stmt w).

(** The computation is a sequence of moves. *)
Definition walks {A} (m : M A) : Prop :=
  forall w : World, rtc step w (m w).2.

(** [g'] holds all that [g] holds, with the same embeddings. *)
Definition graphGrows (g g' : Graph) : Prop :=
  Documents g ⊆ Documents g' /\ Tokens g ⊆ Tokens g'
  /\ Contains g ⊆ Contains g' /\ Predicates g ⊆ Predicates g'.

(** Nothing of [w] is lost or changed in [w']. *)
Definition grows (w w' : World) : Prop :=
  documents w `prefix_of` documents w'
  /\ documents_id_seq w <= documents_id_seq w'
  /\ graphGrows (neo w) (neo w')
  /\ trace w `prefix_of` trace w'.

(** The rows have distinct ids, all given out by the sequence, and
    non-empty embeddings. *)
Definition tableOk (w : World) : Prop :=
  0 <= documents_id_seq w
  /\ NoDup (row_id <$> documents w)
  /\ Forall (fun r => 0 < row_id r <= documents_id_seq w
                       /\ row_embedding r <> []) (documents w).

(** Every Document node is the copy of a row. *)
Definition mirrorsRows (w : World) : Prop :=
  forall (id : Z) (content : string),
    (id, content) ∈ Documents (neo w) -> hasRow id content w.

(** Every edge of the graph joins nodes that exist. *)
Definition wellFormed (g : Graph) : Prop :=
  (forall (token : string) (d : Z * string),
      (token, d) ∈ Contains g ->
      is_Some (Tokens g !! token) /\ d ∈ Documents g)
  /\ (forall subject predicate object : string,
        is_Some (Predicates g !! (subject, predicate, object)) ->
        is_Some (Tokens g !! subject) /\ is_Some (Tokens g !! object)).

(** Both stores, as opposed to the trace. *)
Definition storesOf (w : World) : list Row * Z * Graph :=
  (documents w, documents_id_seq w, neo w).

(** The table and its sequence. *)
Definition tableOf (w : World) : list Row * Z :=
  (documents w, documents_id_seq w).

(** An empty table; a graph store is configured. *)
Definition emptyStore : World := initWorld.

(** A statement without the embeddings it carries. *)
Definition shape (stmt : Cypher) : Cypher :=
  match stmt with
  | MergeDocument docID content => MergeDocument docID content
  | MergeTokenContains name _ docID => MergeTokenContains name [] docID
  | MergeTriplet subject _ predicate _ object _ =>
      MergeTriplet subject [] predicate [] object []
  | QueryNodes _ => QueryNodes []
  end.

(** Gemini has a key and answers every embedding request with a vector. *)
Definition geminiUp (env : Env) : Prop :=
  GEMINI_API_KEY env <> ""%string
  /\ forall (t : nat) (text : string),
       exists (Status respBody : string) (values : Embedding),
         embedContent env t text = Responded 200 Status respBody (inl values)
         /\ values <> [].

(** No statement sent through [pgConn] fails, whatever the reason might
    be: the server, the network, or the one shared connection being
    busy with the statement of another goroutine. *)
Definition postgresUp (env : Env) : Prop :=
  forall t : nat, pgFault env t = None.

(** ** Running the monad *)

Lemma run_bind {A B} (m : M A) (k : A -> M B) (w : World) :
  (m ≫= k) w = k (m w).1 (m w).2.
Proof. unfold mbind, M_bind. by destruct (m w). Qed.

Lemma run_ret {A} (a : A) (w : World) : ret a w = (a, w).
Proof. reflexivity. Qed.

Ltac run := repeat (rewrite run_bind || rewrite run_ret); cbn [fst snd].

(** ** Library functions *)

Example TrimSpace_example :
  TrimSpace ("  hello world " +:+ newline) = "hello world"%string.
Proof. reflexivity. Qed.

Example Split_example :
  Split "a  b" = ["a"; ""; "b"]%string.
Proof. reflexivity. Qed.

(** ** Retrieval: the merge policy *)

(** C1. When the vector search returns [A]: without graph expansion (flag
    off or no graph store) the context is [A] exactly; with it, when the
    graph search returns a non-empty [B], the context is [A], then the
    separator (a line break and "Graph context: "), then [B]; when the
    graph search returns nothing it is [A] exactly. *)
Theorem SearchDocuments_merge_policy
    (env : Env) (q : Embedding) (w w1 : World) (A : string) :
  selectNearest env q w = ((A, None), w1) ->
  SearchDocuments env q false w = ((A, None), w1)
  /\ (neo4jDriver env = false ->
      SearchDocuments env q true w = ((A, None), w1))
  /\ (neo4jDriver env = true ->
      forall (rows : list string) (w2 : World),
        session_Run env (QueryNodes q) w1 = ((rows, None), w2) ->
        (forall B : string,
            head rows = Some B -> B <> ""%string ->
            SearchDocuments env q true w
            = ((A +:+ newline +:+ "Graph context: " +:+ B, None), w2))
        /\ (default ""%string (head rows) = ""%string ->
            SearchDocuments env q true w = ((A, None), w2))).
Proof.
  intros Hpg. unfold SearchDocuments. run. rewrite Hpg. cbn [fst snd].
  split; [reflexivity|]. split.
  - intros ->. reflexivity.
  - intros -> rows w2 Hneo. cbn [negb orb]. run. rewrite Hneo. cbn [fst snd].
    split.
    + intros B -> HB. cbn [from_option id].
      destruct (String.eqb_spec B ""); [contradiction|]. reflexivity.
    + intros ->. reflexivity.
Qed.

Lemma SearchDocuments_merge_policy_witness :
  selectNearest envHybrid unitEmbedding twoDocuments
  = (("alpha beta"%string, None),
     emit (EvSelect unitEmbedding) twoDocuments)
  /\ SearchDocuments envHybrid unitEmbedding true twoDocuments
     = (("alpha beta" +:+ newline +:+ "Graph context: " +:+ "gamma delta", None),
        emit (EvCypher (QueryNodes unitEmbedding))
          (emit (EvSelect unitEmbedding) twoDocuments)).
Proof.
  split; [vm_compute; reflexivity|].
  refine (proj1 (proj2 (proj2 (SearchDocuments_merge_policy envHybrid
            unitEmbedding twoDocuments _ "alpha beta" _)) eq_refl
            ["gamma delta"%string] _ _) "gamma delta"%string eq_refl _).
  - vm_compute; reflexivity.
  - vm_compute; reflexivity.
  - discriminate.
Defined.

(** ** Retrieval: a failing graph lookup *)

(** C3, as the code has it. When the vector lookup succeeds with [A] and
    the graph lookup fails with [e], [SearchDocuments] hands [A] back
    together with a non-nil error naming the graph failure, and [Query]
    answers with that error (500) instead of generating a response. *)
Theorem SearchDocuments_graph_failure
    (env : Env) (query : string) (q : Embedding) (w0 w w1 w2 : World)
    (A : string) (rows : list string) (e : error) :
  neo4jDriver env = true ->
  3 <= len (TrimSpace query) ->
  GetEmbedding env (TrimSpace query) w0 = ((q, None), w) ->
  selectNearest env q w = ((A, None), w1) ->
  session_Run env (QueryNodes q) w1 = ((rows, Some e), w2) ->
  SearchDocuments env q true w
  = ((A, Some ("failed to search documents in Neo4j: " +:+ e)), w2)
  /\ Query env true (Bound query) w0
     = (JSON StatusInternalServerError
          (H_error ("Failed to search documents: "
                    +:+ ("failed to search documents in Neo4j: " +:+ e))),
        w2).
Proof.
  intros Hdrv Hlen Hemb Hpg Hneo.
  assert (Hsearch : SearchDocuments env q true w
            = ((A, Some ("failed to search documents in Neo4j: " +:+ e)), w2)).
  { unfold SearchDocuments. run. rewrite Hpg. cbn [fst snd].
    rewrite Hdrv. cbn [negb orb]. run. rewrite Hneo. reflexivity. }
  split; [exact Hsearch|].
  unfold Query.
  destruct (Z.ltb_spec (len (TrimSpace query)) 3) as [Hlt|_]; [lia|].
  run. rewrite Hemb. cbn [fst snd]. run. rewrite Hsearch. reflexivity.
Qed.

Lemma SearchDocuments_graph_failure_witness :
  SearchDocuments envGraphDown unitEmbedding true
    (emit (EvEmbedContent "what is it?") graphDownWorld)
  = (("hello world"%string,
      Some "failed to search documents in Neo4j: connection refused"%string),
     emit (EvCypher (QueryNodes unitEmbedding))
       (emit (EvSelect unitEmbedding)
          (emit (EvEmbedContent "what is it?") graphDownWorld)))
  /\ (Query envGraphDown true (Bound "what is it?"%string) graphDownWorld).1
     = JSON 500
         (H_error "Failed to search documents: failed to search documents in Neo4j: connection refused").
Proof.
  pose proof (SearchDocuments_graph_failure envGraphDown "what is it?"
                unitEmbedding graphDownWorld _ _ _ "hello world" [] "connection refused"
                eq_refl ltac:(vm_compute; discriminate)
                ltac:(vm_compute; reflexivity)
                ltac:(vm_compute; reflexivity)
                ltac:(vm_compute; reflexivity)) as [H1 H2].
  split; [exact H1|]. rewrite H2. reflexivity.
Defined.

(** C3 as stated fails: here the vector lookup finds "hello world", the
    graph lookup fails, and the caller gets a non-nil error; the handler
    replies 500. *)
Lemma graph_failure_fails_the_query :
  (selectNearest envGraphDown unitEmbedding graphDownWorld).1
  = ("hello world"%string, None)
  /\ (session_Run envGraphDown (QueryNodes unitEmbedding)
        (selectNearest envGraphDown unitEmbedding graphDownWorld).2).1.2
     = Some "connection refused"%string
  /\ (SearchDocuments envGraphDown unitEmbedding true graphDownWorld).1.2 <> None
  /\ code (Query envGraphDown true (Bound "what is it?"%string) graphDownWorld).1
     = StatusInternalServerError.
Proof. vm_compute. repeat split; discriminate. Qed.

(** ** Validation *)

(** C4, as the code has it. A batch is refused at its first document
    whose trimmed text is shorter than 5 bytes: nothing is started for it
    or for the documents after it, and the handler itself touches no
    store.  A query whose trimmed text is shorter than 3 bytes is refused
    before any external call. *)
Theorem validation_short_circuits
    (env : Env) (w : World) (pre : list string) (d : string)
    (post : list string) (useGraph : bool) (q : string) :
  Forall (fun t => 5 <= len (TrimSpace t)) pre ->
  len (TrimSpace d) < 5 ->
  len (TrimSpace q) < 3 ->
  AddDocuments env (Bound (pre ++ d :: post)) w
  = ((JSON StatusBadRequest
        (H_error "Document text must be at least 5 characters long"),
      TrimSpace <$> pre), w)
  /\ Query env useGraph (Bound q) w
     = (JSON StatusBadRequest
          (H_error "Query must be at least 3 characters long"), w).
Proof.
  intros Hpre Hd Hq. split.
  - unfold AddDocuments.
    assert (Hloop : forall launched,
               launchLoop (pre ++ d :: post) launched
               = inr (launched ++ (TrimSpace <$> pre))).
    { clear -Hpre Hd. induction Hpre as [|t pre Ht _ IH]; intros launched.
      - cbn. destruct (Z.ltb_spec (len (TrimSpace d)) 5); [|lia].
        by rewrite app_nil_r.
      - cbn. destruct (Z.ltb_spec (len (TrimSpace t)) 5); [lia|].
        rewrite IH, <- app_assoc. reflexivity. }
    rewrite Hloop. cbn [app].
    destruct (pre ++ d :: post) eqn:E; [by destruct pre|reflexivity].
  - unfold Query.
    destruct (Z.ltb_spec (len (TrimSpace q)) 3); [reflexivity|lia].
Qed.

Lemma validation_short_circuits_witness :
  AddDocuments envVectorOnly (Bound ["hello world"; "hi"; "later text"]%string)
    oneDocument
  = ((JSON 400 (H_error "Document text must be at least 5 characters long"),
      ["hello world"%string]), oneDocument)
  /\ Query envVectorOnly true (Bound " ab "%string) oneDocument
     = (JSON 400 (H_error "Query must be at least 3 characters long"),
        oneDocument).
Proof.
  apply (validation_short_circuits envVectorOnly oneDocument
           ["hello world"%string] "hi" ["later text"%string] true " ab ").
  - repeat constructor. vm_compute. discriminate.
  - vm_compute. reflexivity.
  - vm_compute. reflexivity.
Defined.

(** C4 as stated fails. The query "abcd" has 4 bytes, fewer than 5, and
    is embedded, searched for and answered.  And the batch loop launches
    the goroutine of a document before it checks the next one: the batch
    below is refused, yet its first document is embedded and stored. *)
Lemma validation_does_not_precede_every_call :
  (len (TrimSpace "abcd") = 4
   /\ (Query envVectorOnly false (Bound "abcd"%string) oneDocument).1
      = JSON StatusOK (H_response "answer")
   /\ drop (now oneDocument)
        (trace (Query envVectorOnly false (Bound "abcd"%string) oneDocument).2)
      = [EvEmbedContent "abcd"; EvSelect unitEmbedding;
         EvGenerateContent (prompt_of "abcd" "hello world")])
  /\ (len (TrimSpace "hi") = 2
      /\ (AddDocuments envVectorOnly (Bound ["hello world"; "hi"]%string)
            initWorld).1
         = (JSON StatusBadRequest
              (H_error "Document text must be at least 5 characters long"),
            ["hello world"%string])
      /\ trace (serve envVectorOnly
                  (POST_add (Bound ["hello world"; "hi"]%string)) initWorld).2
         = [EvEmbedContent "hello world"; EvInsert "hello world" unitEmbedding]
      /\ row_content <$>
           documents (serve envVectorOnly
                        (POST_add (Bound ["hello world"; "hi"]%string))
                        initWorld).2
         = ["hello world"%string]).
Proof. vm_compute. repeat split. Qed.

(** ** What each operation leaves alone *)

Lemma keeps_ret {A X} (obs : World -> X) (a : A) : keeps obs (ret a).
Proof. by intros w. Qed.

Lemma keeps_bind {A B X} (obs : World -> X) (m : M A) (k : A -> M B) :
  keeps obs m -> (forall a, keeps obs (k a)) -> keeps obs (m ≫= k).
Proof. intros Hm Hk w. rewrite run_bind, Hk. apply Hm. Qed.

Lemma cypherCalls_snoc (t : list Event) (ev : Event) :
  cypherCalls (t ++ [ev])
  = cypherCalls t
    ++ match ev with EvCypher stmt => [stmt] | _ => [] end.
Proof. unfold cypherCalls. rewrite omap_app. by destruct ev. Qed.

Lemma graphLog_emit (ev : Event) (w : World) :
  graphLog (emit ev w)
  = graphLog w ++ match ev with EvCypher stmt => [stmt] | _ => [] end.
Proof. apply cypherCalls_snoc. Qed.

Section Frames.
Variable env : Env.

Lemma GetEmbedding_emits (text : string) (w : World) :
  (GetEmbedding env text w).2 = w
  \/ (GetEmbedding env text w).2 = emit (EvEmbedContent text) w.
Proof.
  unfold GetEmbedding.
  destruct (String.eqb _ _); [by left|right].
  destruct (embedContent _ _ _) as [?|?|sc st rb [vs|?]]; try done;
    destruct (negb _); try done.
  by destruct (length vs =? 0)%nat.
Qed.

Lemma GenerateResponse_emits (query context : string) (w : World) :
  (GenerateResponse env query context w).2 = w
  \/ (GenerateResponse env query context w).2
     = emit (EvGenerateContent (prompt_of query context)) w.
Proof.
  unfold GenerateResponse.
  destruct (String.eqb _ _); [by left|right].
  destruct (generateContent _ _ _) as [?|?|sc st rb [[|[|??] ?]|?]]; try done;
    by destruct (negb _).
Qed.

Lemma selectNearest_emits (q : Embedding) (w : World) :
  (selectNearest env q w).2 = emit (EvSelect q) w.
Proof.
  unfold selectNearest. destruct (pgFault _ _); [done|].
  by destruct (nearest _ _ _).
Qed.

Lemma extractTokensAndTriplets_emits (content : string) (w : World) :
  (extractTokensAndTriplets env content w).2 = emit (EvExtract content) w.
Proof. unfold extractTokensAndTriplets. by destruct (extractTriplets _ _ _). Qed.

Lemma GetEmbedding_keeps {X} (obs : World -> X) (text : string) :
  (forall w, obs (emit (EvEmbedContent text) w) = obs w) ->
  keeps obs (GetEmbedding env text).
Proof.
  intros H w. destruct (GetEmbedding_emits text w) as [-> | ->]; [done|apply H].
Qed.

Lemma GenerateResponse_keeps {X} (obs : World -> X) (query context : string) :
  (forall ev w, (forall stmt, ev <> EvCypher stmt) -> obs (emit ev w) = obs w) ->
  keeps obs (GenerateResponse env query context).
Proof.
  intros H w.
  destruct (GenerateResponse_emits query context w) as [-> | ->]; [done|].
  by apply H.
Qed.

Lemma selectNearest_keeps {X} (obs : World -> X) (q : Embedding) :
  (forall w, obs (emit (EvSelect q) w) = obs w) ->
  keeps obs (selectNearest env q).
Proof. intros H w. rewrite selectNearest_emits. apply H. Qed.

Lemma extractTokensAndTriplets_keeps {X} (obs : World -> X) (content : string) :
  (forall w, obs (emit (EvExtract content) w) = obs w) ->
  keeps obs (extractTokensAndTriplets env content).
Proof. intros H w. rewrite extractTokensAndTriplets_emits. apply H. Qed.

(** What [session.Run] does to the world. *)
Lemma session_Run_ok (stmt : Cypher) (w w' : World) (rs : list string) :
  session_Run env stmt w = ((rs, None), w') ->
  neo w' = execCypher stmt (neo w) /\ documents w' = documents w
  /\ rs = records env stmt (neo w).
Proof.
  unfold session_Run. destruct (neo4jFault _ _); [done|].
  by intros [= <- <-].
Qed.

Lemma session_Run_neo (stmt : Cypher) (w : World) :
  neo (session_Run env stmt w).2 = neo w
  \/ neo (session_Run env stmt w).2 = execCypher stmt (neo w).
Proof. unfold session_Run. destruct (neo4jFault _ _); [by left|by right]. Qed.

Lemma session_Run_documents (stmt : Cypher) : keeps documents (session_Run env stmt).
Proof. intros w. unfold session_Run. by destruct (neo4jFault _ _). Qed.

End Frames.

(** ** Tokens: first write wins *)

Lemma mergeToken_fresh (name : string) (e : Embedding)
    (tokens : gmap string Embedding) :
  tokens !! name = None -> mergeToken name e tokens !! name = Some e.
Proof. intros H. unfold mergeToken. rewrite H. apply lookup_insert_eq. Qed.

Lemma mergeToken_kept (name name' : string) (e e' : Embedding)
    (tokens : gmap string Embedding) :
  tokens !! name = Some e -> mergeToken name' e' tokens !! name = Some e.
Proof.
  intros H. unfold mergeToken.
  destruct (tokens !! name') eqn:E; [done|].
  rewrite lookup_insert_ne; [done|]. intros ->. congruence.
Qed.

Lemma mergeToken_other (name name' : string) (e' : Embedding)
    (tokens : gmap string Embedding) :
  name' <> name -> mergeToken name' e' tokens !! name = tokens !! name.
Proof.
  intros H. unfold mergeToken.
  destruct (tokens !! name'); [done|]. by rewrite lookup_insert_ne.
Qed.

(** No statement changes the embedding of a token that exists. *)
Lemma execCypher_token_kept (stmt : Cypher) (g : Graph) (name : string)
    (e : Embedding) :
  Tokens g !! name = Some e -> Tokens (execCypher stmt g) !! name = Some e.
Proof.
  intros H. destruct stmt; cbn; auto using mergeToken_kept.
Qed.

(** A statement that upserts an absent token creates it with the
    embedding it carries. *)
Lemma execCypher_token_created (stmt : Cypher) (g : Graph) (name : string)
    (e : Embedding) :
  upserts stmt name e -> Tokens g !! name = None ->
  Tokens (execCypher stmt g) !! name = Some e.
Proof.
  intros Hup Hnone. destruct Hup; cbn.
  - by apply mergeToken_fresh.
  - by apply mergeToken_kept, mergeToken_fresh.
  - apply mergeToken_fresh. by rewrite mergeToken_other.
Qed.

Lemma execCypher_token_present (stmt : Cypher) (g : Graph) (name : string)
    (e : Embedding) :
  upserts stmt name e -> is_Some (Tokens (execCypher stmt g) !! name).
Proof.
  intros Hup. destruct (Tokens g !! name) as [e0|] eqn:E.
  - exists e0. by apply execCypher_token_kept.
  - exists e. by apply execCypher_token_created.
Qed.

(** C5. Two upserts of the same token name, each through the token
    statement or as an end of a predicate edge: the second leaves the
    stored embedding as the first left it, and when the token was new
    that is the embedding of the first upsert. *)
Theorem token_first_write_wins
    (env : Env) (stmt1 stmt2 : Cypher) (name : string) (e1 e2 : Embedding)
    (w w1 w2 : World) (rs1 rs2 : list string) :
  upserts stmt1 name e1 ->
  upserts stmt2 name e2 ->
  session_Run env stmt1 w = ((rs1, None), w1) ->
  session_Run env stmt2 w1 = ((rs2, None), w2) ->
  Tokens (neo w2) !! name = Tokens (neo w1) !! name
  /\ (Tokens (neo w) !! name = None -> Tokens (neo w2) !! name = Some e1).
Proof.
  intros Hup1 Hup2 Hrun1 Hrun2.
  apply session_Run_ok in Hrun1 as (Hneo1 & _ & _).
  apply session_Run_ok in Hrun2 as (Hneo2 & _ & _).
  rewrite Hneo2, Hneo1.
  destruct (execCypher_token_present stmt1 (neo w) name e1 Hup1) as [e0 He0].
  rewrite He0. split.
  - by apply execCypher_token_kept.
  - intros Hnew. apply execCypher_token_kept.
    by apply execCypher_token_created.
Qed.

Lemma token_first_write_wins_witness :
  Tokens (neo (session_Run envHybrid
                 (MergeTriplet "Plato" [2] "taught" [3] "Aristotle" [4])
                 (session_Run envHybrid (MergeTokenContains "Plato" [1] 1)
                    twoDocuments).2).2) !! "Plato"%string
  = Some [1]
  /\ Tokens (neo (session_Run envHybrid
                 (MergeTokenContains "Aristotle" [5] 2)
                 (session_Run envHybrid
                    (MergeTriplet "Plato" [2] "taught" [3] "Aristotle" [4])
                    twoDocuments).2).2) !! "Aristotle"%string
  = Some [4].
Proof.
  split.
  - refine (proj2 (token_first_write_wins envHybrid
              (MergeTokenContains "Plato" [1] 1)
              (MergeTriplet "Plato" [2] "taught" [3] "Aristotle" [4])
              "Plato" [1] [2] twoDocuments _ _ [] []
              (upserts_token _ _ _) (upserts_subject _ _ _ _ _ _)
              _ _) _);
      vm_compute; reflexivity.
  - refine (proj2 (token_first_write_wins envHybrid
              (MergeTriplet "Plato" [2] "taught" [3] "Aristotle" [4])
              (MergeTokenContains "Aristotle" [5] 2)
              "Aristotle" [4] [5] twoDocuments _ _ [] []
              (upserts_object _ _ _ _ _ _ _) (upserts_token _ _ _)
              _ _) _);
      try (vm_compute; reflexivity).
    discriminate.
Defined.

(** ** Without a graph store *)

Lemma graphSide_emit (ev : Event) (w : World) :
  (forall stmt, ev <> EvCypher stmt) -> graphSide (emit ev w) = graphSide w.
Proof.
  intros H. unfold graphSide. rewrite graphLog_emit.
  destruct ev; rewrite ?app_nil_r; try done. by destruct (H stmt).
Qed.

Section NoGraph.
Variable env : Env.
Hypothesis no_driver : neo4jDriver env = false.

Lemma GetEmbedding_graphSide (text : string) :
  keeps graphSide (GetEmbedding env text).
Proof. apply GetEmbedding_keeps. intros w. by apply graphSide_emit. Qed.

Lemma insertDocument_graphSide (content : string) (embedding : Embedding) :
  keeps graphSide (insertDocument env content embedding).
Proof.
  intros w. unfold insertDocument. destruct (pgFault _ _); cbn [snd].
  - by apply graphSide_emit.
  - unfold graphSide, graphLog. cbn. by rewrite cypherCalls_snoc, app_nil_r.
Qed.

Lemma AddDocument_graphSide (content : string) (embedding : Embedding) :
  keeps graphSide (AddDocument env content embedding).
Proof.
  unfold AddDocument. apply keeps_bind; [apply insertDocument_graphSide|].
  intros [docID [e|]]; [apply keeps_ret|]. rewrite no_driver. apply keeps_ret.
Qed.

Lemma ingest_graphSide (text : string) : keeps graphSide (ingest env text).
Proof.
  unfold ingest. apply keeps_bind; [apply GetEmbedding_graphSide|].
  intros [embedding [e|]]; [apply keeps_ret|apply AddDocument_graphSide].
Qed.

Lemma runGoroutines_graphSide (launched : list string) (errors : list string) :
  keeps graphSide (runGoroutines env launched errors).
Proof.
  revert errors. induction launched as [|text rest IH]; intros errors; cbn.
  - apply keeps_ret.
  - apply keeps_bind; [apply ingest_graphSide|]. intros err. apply IH.
Qed.

Lemma AddDocuments_graphSide (req : Binding (list string)) :
  keeps graphSide (AddDocuments env req).
Proof.
  unfold AddDocuments. destruct req as [err|docs]; [apply keeps_ret|].
  destruct (length docs =? 0)%nat; [apply keeps_ret|].
  destruct (launchLoop docs []); [|apply keeps_ret].
  apply keeps_bind; [apply runGoroutines_graphSide|].
  intros errors. destruct (0 <? length errors)%nat; apply keeps_ret.
Qed.

Lemma SearchDocuments_no_driver (q : Embedding) (useGraph : bool) :
  SearchDocuments env q useGraph = SearchDocuments env q false.
Proof.
  unfold SearchDocuments. rewrite no_driver. cbn [negb orb].
  by rewrite orb_true_r.
Qed.

Lemma SearchDocuments_graphSide (q : Embedding) (useGraph : bool) :
  keeps graphSide (SearchDocuments env q useGraph).
Proof.
  rewrite SearchDocuments_no_driver. unfold SearchDocuments.
  apply keeps_bind.
  - apply selectNearest_keeps. intros w. by apply graphSide_emit.
  - intros [pgContent [e|]]; apply keeps_ret.
Qed.

Lemma Query_graphSide (useGraph : bool) (req : Binding string) :
  keeps graphSide (Query env useGraph req).
Proof.
  unfold Query. destruct req as [err|query]; [apply keeps_ret|].
  destruct (len (TrimSpace query) <? 3); [apply keeps_ret|].
  apply keeps_bind; [apply GetEmbedding_graphSide|].
  intros [embedding [e|]]; [apply keeps_ret|].
  apply keeps_bind; [apply SearchDocuments_graphSide|].
  intros [context [e|]]; [apply keeps_ret|].
  apply keeps_bind.
  - apply GenerateResponse_keeps. intros ev w. apply graphSide_emit.
  - intros [response [e|]]; apply keeps_ret.
Qed.

Lemma UploadDocumentGin_graphSide (req : Upload) :
  keeps graphSide (UploadDocumentGin env req).
Proof.
  unfold UploadDocumentGin. destruct req as [| |content]; try apply keeps_ret.
  apply keeps_bind; [apply GetEmbedding_graphSide|].
  intros [embedding [e|]]; [apply keeps_ret|].
  apply keeps_bind; [apply AddDocument_graphSide|].
  intros [e|]; apply keeps_ret.
Qed.

Lemma serve_graphSide (r : Request) : keeps graphSide (serve env r).
Proof.
  destruct r as [req|useGraph req|req]; cbn.
  - apply keeps_bind; [apply AddDocuments_graphSide|].
    intros [resp detached].
    apply keeps_bind; [apply runGoroutines_graphSide|]. intros. apply keeps_ret.
  - apply Query_graphSide.
  - apply UploadDocumentGin_graphSide.
Qed.

End NoGraph.

(** C6. Without a graph store, asking for graph expansion changes
    nothing in the search or in the reply to a query, and neither
    [AddDocument] nor any request served sends a statement to the graph
    store or changes its content. *)
Theorem no_graph_backend (env : Env) :
  neo4jDriver env = false ->
  (forall (q : Embedding) (w : World),
      SearchDocuments env q true w = SearchDocuments env q false w)
  /\ (forall (req : Binding string) (w : World),
        Query env true req w = Query env false req w)
  /\ (forall (content : string) (embedding : Embedding) (w : World),
        graphLog (AddDocument env content embedding w).2 = graphLog w)
  /\ (forall (r : Request) (w : World),
        graphLog (serve env r w).2 = graphLog w
        /\ neo (serve env r w).2 = neo w).
Proof.
  intros Hnil. repeat split.
  - intros q w. by rewrite SearchDocuments_no_driver.
  - intros req w. unfold Query. destruct req as [err|query]; [done|].
    destruct (len (TrimSpace query) <? 3); [done|].
    run. destruct (GetEmbedding env (TrimSpace query) w) as [[embedding [e|]] w1];
      [done|]. cbn [fst snd]. run.
    by rewrite (SearchDocuments_no_driver env Hnil embedding true).
  - intros content embedding w.
    pose proof (AddDocument_graphSide env Hnil content embedding w) as H.
    by injection H.
  - pose proof (serve_graphSide env Hnil r w) as H. by injection H.
  - pose proof (serve_graphSide env Hnil r w) as H. by injection H.
Qed.

Lemma no_graph_backend_witness :
  Query envVectorOnly true (Bound "which letter?"%string) oneDocument
  = Query envVectorOnly false (Bound "which letter?"%string) oneDocument
  /\ graphLog (serve envVectorOnly
                 (POST_add (Bound ["alpha beta"; "gamma delta"]%string))
                 oneDocument).2
     = [].
Proof.
  destruct (no_graph_backend envVectorOnly eq_refl) as (_ & HQ & _ & Hserve).
  split; [apply HQ|].
  rewrite (proj1 (Hserve _ _)). vm_compute. reflexivity.
Defined.

(** ** Document nodes mirror rows *)

Lemma preserves_ret {A} (P : World -> Prop) (a : A) : preserves P (ret a).
Proof. by intros w. Qed.

Lemma preserves_bind {A B} (P : World -> Prop) (m : M A) (k : A -> M B) :
  preserves P m -> (forall a, preserves P (k a)) -> preserves P (m ≫= k).
Proof. intros Hm Hk w HP. rewrite run_bind. by apply Hk, Hm. Qed.

Lemma mirrored_docSide (w w' : World) :
  docSide w' = docSide w -> mirrored w -> mirrored w'.
Proof.
  unfold docSide. intros [= Hrows Hdocs] Hm id content.
  rewrite Hrows, Hdocs. apply Hm.
Qed.

Lemma keeps_docSide_mirrored {A} (m : M A) :
  keeps docSide m -> preserves mirrored m.
Proof. intros Hk w. apply mirrored_docSide, Hk. Qed.

Lemma docSide_emit (ev : Event) (w : World) : docSide (emit ev w) = docSide w.
Proof. reflexivity. Qed.

Section Mirror.
Variable env : Env.

Lemma GetEmbedding_docSide (text : string) :
  keeps docSide (GetEmbedding env text).
Proof. apply GetEmbedding_keeps. intros w. apply docSide_emit. Qed.

(** Only [MERGE (d:Document ...)] adds a Document node. *)
Lemma session_Run_docSide (stmt : Cypher) :
  (forall docID content, stmt <> MergeDocument docID content) ->
  keeps docSide (session_Run env stmt).
Proof.
  intros Hstmt w. unfold session_Run. destruct (neo4jFault _ _); [done|].
  destruct stmt; try done. by destruct (Hstmt docID content).
Qed.

Lemma tokenBody_docSide (docID : Z) (token : string) :
  keeps docSide (tokenBody env docID token).
Proof.
  unfold tokenBody. apply keeps_bind; [apply GetEmbedding_docSide|].
  intros [tokenEmbedding [e|]]; [apply keeps_ret|].
  apply keeps_bind; [by apply session_Run_docSide|].
  intros [rs err]. apply keeps_ret.
Qed.

Lemma tokenLoop_docSide (docID : Z) (tokens : list string) :
  keeps docSide (tokenLoop env docID tokens).
Proof.
  induction tokens as [|token rest IH]; cbn; [apply keeps_ret|].
  apply keeps_bind; [apply tokenBody_docSide|].
  intros [e|]; [apply keeps_ret|apply IH].
Qed.

Lemma tripletBody_docSide (triplet : Triplet) :
  keeps docSide (tripletBody env triplet).
Proof.
  unfold tripletBody.
  apply keeps_bind; [apply GetEmbedding_docSide|]. intros [subjectEmb ?].
  apply keeps_bind; [apply GetEmbedding_docSide|]. intros [predicateEmb ?].
  apply keeps_bind; [apply GetEmbedding_docSide|]. intros [objectEmb ?].
  apply keeps_bind; [by apply session_Run_docSide|].
  intros [rs err]. apply keeps_ret.
Qed.

Lemma tripletLoop_docSide (triplets : list Triplet) :
  keeps docSide (tripletLoop env triplets).
Proof.
  induction triplets as [|triplet rest IH]; cbn; [apply keeps_ret|].
  apply keeps_bind; [apply tripletBody_docSide|].
  intros [e|]; [apply keeps_ret|apply IH].
Qed.

(** The graph part of an ingestion keeps the invariant as long as the id
    it is given is the id of a row. *)
Lemma AddTokenAndTriplets_mirrored (content : string) (embedding : Embedding)
    (docID : Z) (w : World) :
  mirrored w ->
  (exists r : Row, r ∈ documents w /\ row_id r = docID) ->
  mirrored (AddTokenAndTriplets env content embedding docID w).2.
Proof.
  intros Hm Hrow. unfold AddTokenAndTriplets. run.
  rewrite extractTokensAndTriplets_emits.
  destruct (extractTokensAndTriplets env content w).1 as [tokens triplets].
  run. set (w1 := emit (EvExtract content) w).
  assert (Hm2 : mirrored (session_Run env (MergeDocument docID content) w1).2).
  { unfold session_Run. destruct (neo4jFault _ _); [exact Hm|].
    intros id c. cbn. rewrite elem_of_union, elem_of_singleton.
    intros [[= -> ->]|Hin]; [exact Hrow|by apply (Hm id c)]. }
  destruct (session_Run env (MergeDocument docID content) w1) as [[rs [e|]] w2];
    [exact Hm2|]. cbn [fst snd] in *. run.
  pose proof (tokenLoop_docSide docID tokens w2) as Hk.
  destruct (tokenLoop env docID tokens w2) as [[e|] w3]; cbn [fst snd] in *.
  - by apply (mirrored_docSide w2).
  - apply (mirrored_docSide w3); [apply tripletLoop_docSide|].
    by apply (mirrored_docSide w2).
Qed.

Lemma AddDocument_mirrored (content : string) (embedding : Embedding) :
  preserves mirrored (AddDocument env content embedding).
Proof.
  intros w Hm. unfold AddDocument. run. unfold insertDocument.
  destruct (pgFault env (now w)) as [e|]; [exact Hm|]. cbn [fst snd].
  set (docID := documents_id_seq w + 1). set (w1 := mkWorld _ _ _ _).
  assert (Hm1 : mirrored w1).
  { intros id c Hin. destruct (Hm id c Hin) as (r & Hr & Hid).
    exists r. split; [|done]. cbn. apply elem_of_app. by left. }
  destruct (neo4jDriver env); [|exact Hm1].
  apply AddTokenAndTriplets_mirrored; [exact Hm1|].
  exists (mkRow docID content embedding). split; [|done].
  cbn. apply elem_of_app. right. by apply list_elem_of_singleton.
Qed.

Lemma ingest_mirrored (text : string) : preserves mirrored (ingest env text).
Proof.
  unfold ingest. apply preserves_bind.
  - apply keeps_docSide_mirrored, GetEmbedding_docSide.
  - intros [embedding [e|]]; [apply preserves_ret|apply AddDocument_mirrored].
Qed.

Lemma runGoroutines_mirrored (launched : list string) (errors : list string) :
  preserves mirrored (runGoroutines env launched errors).
Proof.
  revert errors. induction launched as [|text rest IH]; intros errors; cbn.
  - apply preserves_ret.
  - apply preserves_bind; [apply ingest_mirrored|]. intros err. apply IH.
Qed.

Lemma AddDocuments_mirrored (req : Binding (list string)) :
  preserves mirrored (AddDocuments env req).
Proof.
  unfold AddDocuments. destruct req as [err|docs]; [apply preserves_ret|].
  destruct (length docs =? 0)%nat; [apply preserves_ret|].
  destruct (launchLoop docs []); [|apply preserves_ret].
  apply preserves_bind; [apply runGoroutines_mirrored|].
  intros errors. destruct (0 <? length errors)%nat; apply preserves_ret.
Qed.

Lemma SearchDocuments_docSide (q : Embedding) (useGraph : bool) :
  keeps docSide (SearchDocuments env q useGraph).
Proof.
  unfold SearchDocuments. apply keeps_bind.
  - apply selectNearest_keeps. intros w. apply docSide_emit.
  - intros [pgContent [e|]]; [apply keeps_ret|].
    destruct (negb useGraph || negb (neo4jDriver env)); [apply keeps_ret|].
    apply keeps_bind; [by apply session_Run_docSide|].
    intros [result [e|]]; [apply keeps_ret|].
    cbn zeta. destruct (negb _); apply keeps_ret.
Qed.

Lemma Query_docSide (useGraph : bool) (req : Binding string) :
  keeps docSide (Query env useGraph req).
Proof.
  unfold Query. destruct req as [err|query]; [apply keeps_ret|].
  destruct (len (TrimSpace query) <? 3); [apply keeps_ret|].
  apply keeps_bind; [apply GetEmbedding_docSide|].
  intros [embedding [e|]]; [apply keeps_ret|].
  apply keeps_bind; [apply SearchDocuments_docSide|].
  intros [context [e|]]; [apply keeps_ret|].
  apply keeps_bind.
  - apply GenerateResponse_keeps. intros ev w _. apply docSide_emit.
  - intros [response [e|]]; apply keeps_ret.
Qed.

Lemma UploadDocumentGin_mirrored (req : Upload) :
  preserves mirrored (UploadDocumentGin env req).
Proof.
  unfold UploadDocumentGin. destruct req as [| |content]; try apply preserves_ret.
  apply preserves_bind.
  - apply keeps_docSide_mirrored, GetEmbedding_docSide.
  - intros [embedding [e|]]; [apply preserves_ret|].
    apply preserves_bind; [apply AddDocument_mirrored|].
    intros [e|]; apply preserves_ret.
Qed.

Lemma serve_mirrored (r : Request) : preserves mirrored (serve env r).
Proof.
  destruct r as [req|useGraph req|req]; cbn.
  - apply preserves_bind; [apply AddDocuments_mirrored|].
    intros [resp detached].
    apply preserves_bind; [apply runGoroutines_mirrored|].
    intros. apply preserves_ret.
  - apply keeps_docSide_mirrored, Query_docSide.
  - apply UploadDocumentGin_mirrored.
Qed.

End Mirror.

(** C9. In every state the server reaches, each Document node of the
    graph store has a row of the same id in the vector store. *)
Theorem graph_documents_have_rows (env : Env) (w : World) :
  reachable env w -> mirrored w.
Proof.
  induction 1 as [|w r _ IH].
  - intros id content Hin. by apply not_elem_of_empty in Hin.
  - by apply serve_mirrored.
Qed.

Lemma graph_documents_have_rows_witness :
  reachable envHybrid twoDocuments /\ mirrored twoDocuments.
Proof.
  assert (H : reachable envHybrid twoDocuments)
    by apply reachable_serve, reachable_init.
  split; [exact H|]. exact (graph_documents_have_rows envHybrid twoDocuments H).
Defined.

(** The converse is not an invariant: a row may have no node. *)
Lemma rows_without_graph_documents :
  reachable envGraphDown graphDownWorld
  /\ row_id <$> documents graphDownWorld = [1]
  /\ Documents (neo graphDownWorld) = ∅.
Proof.
  split; [apply reachable_serve, reachable_init|].
  split; vm_compute; reflexivity.
Qed.

(** ** Graph ingestion: a failing token *)

Lemma tokenLoop_app (env : Env) (docID : Z) (pre post : list string)
    (w w1 : World) :
  tokenLoop env docID pre w = (None, w1) ->
  tokenLoop env docID (pre ++ post) w = tokenLoop env docID post w1.
Proof.
  revert w. induction pre as [|token pre IH]; intros w; cbn.
  - by intros [= ->].
  - run. destruct (tokenBody env docID token w) as [[e|] w']; cbn [fst snd].
    + discriminate.
    + apply IH.
Qed.

(** C7, as the code has it. When, after the tokens [pre] went through,
    the embedding or the upsert of [token] fails with [e], the function
    returns [e] there and then: the world it leaves is the one of the
    failed call, so neither the tokens [post] nor the triplets are
    processed; the goroutine of the document records [e]. *)
Theorem token_failure_stops_ingestion
    (env : Env) (content : string) (embedding : Embedding) (docID : Z)
    (pre : list string) (token : string) (post : list string)
    (triplets : list Triplet) (errors : list string) (e : error)
    (wa wb w w0 w1 w2 w3 : World) (rs : list string) :
  neo4jDriver env = true ->
  GetEmbedding env content wa = ((embedding, None), wb) ->
  insertDocument env content embedding wb = ((docID, None), w) ->
  extractTokensAndTriplets env content w = ((pre ++ token :: post, triplets), w0) ->
  session_Run env (MergeDocument docID content) w0 = ((rs, None), w1) ->
  tokenLoop env docID pre w1 = (None, w2) ->
  ((exists emb, GetEmbedding env token w2 = ((emb, Some e), w3))
   \/ (exists emb w' rs',
         GetEmbedding env token w2 = ((emb, None), w')
         /\ session_Run env (MergeTokenContains token emb docID) w'
            = ((rs', Some e), w3))) ->
  AddTokenAndTriplets env content embedding docID w = (Some e, w3)
  /\ runGoroutines env [content] errors wa = (errors ++ [e], w3).
Proof.
  intros Hdrv Hemb Hins Hext Hdoc Hpre Hfail.
  assert (Hbody : tokenBody env docID token w2 = (Some e, w3)).
  { unfold tokenBody. run.
    destruct Hfail as [(emb & H)|(emb & w' & rs' & H & Hrun)];
      rewrite H; cbn [fst snd]; [done|]. run. by rewrite Hrun. }
  assert (Hadd : AddTokenAndTriplets env content embedding docID w = (Some e, w3)).
  { unfold AddTokenAndTriplets. run. rewrite Hext. cbn [fst snd]. run.
    rewrite Hdoc. cbn [fst snd]. run.
    rewrite (tokenLoop_app env docID pre (token :: post) w1 w2 Hpre).
    cbn [tokenLoop]. run. rewrite Hbody. reflexivity. }
  split; [exact Hadd|].
  cbn [runGoroutines]. run. unfold ingest. run. rewrite Hemb. cbn [fst snd].
  unfold AddDocument. run. rewrite Hins. cbn [fst snd]. rewrite Hdrv, Hadd.
  reflexivity.
Qed.

Lemma token_failure_stops_ingestion_witness :
  (runGoroutines (envEmbedFails "beta") ["alpha beta gamma"%string] [] initWorld).1
  = ["failed to send request to Gemini API: timeout"%string]
  /\ trace (runGoroutines (envEmbedFails "beta") ["alpha beta gamma"%string] []
             initWorld).2
     = [EvEmbedContent "alpha beta gamma";
        EvInsert "alpha beta gamma" unitEmbedding;
        EvExtract "alpha beta gamma";
        EvCypher (MergeDocument 1 "alpha beta gamma");
        EvEmbedContent "alpha";
        EvCypher (MergeTokenContains "alpha" unitEmbedding 1);
        EvEmbedContent "beta"].
Proof.
  pose proof (token_failure_stops_ingestion (envEmbedFails "beta")
                "alpha beta gamma" unitEmbedding 1 ["alpha"%string] "beta"
                ["gamma"%string] [mkTriplet "Socrates" "teaches" "Plato"] []
                "failed to send request to Gemini API: timeout"
                initWorld _ _ _ _ _ _ [] eq_refl
                ltac:(vm_compute; reflexivity) ltac:(vm_compute; reflexivity)
                ltac:(vm_compute; reflexivity) ltac:(vm_compute; reflexivity)
                ltac:(vm_compute; reflexivity)
                ltac:(left; exists []; vm_compute; reflexivity)) as [_ H].
  rewrite H. split; [reflexivity|]. vm_compute. reflexivity.
Defined.

(** C7 as stated fails: the embedding of the token "beta" fails, and the
    loop does not go on to "gamma": it is never embedded, never
    upserted, and the triplet of the document is not written either. *)
Lemma token_failure_skips_the_rest :
  betaRefused.1
  = JSON StatusInternalServerError
      (H_error_details "Failed to process some documents"
         ["failed to send request to Gemini API: timeout"%string])
  /\ dom (Tokens (neo betaRefused.2)) = {[ "alpha"%string ]}
  /\ ~ In (EvEmbedContent "gamma") (trace betaRefused.2)
  /\ Predicates (neo betaRefused.2) = ∅.
Proof.
  split; [vm_compute; reflexivity|].
  split; [vm_compute; reflexivity|].
  split; [|vm_compute; reflexivity].
  intros Hin. vm_compute in Hin.
  repeat (destruct Hin as [Hin|Hin]; [discriminate Hin|]). exact Hin.
Qed.

(** ** Graph ingestion: failing embeddings of a triplet *)

(** Whenever [GetEmbedding] returns an error, the slice it returns is nil. *)
Lemma GetEmbedding_nil_on_error (env : Env) (text : string) (w w' : World)
    (emb : Embedding) (e : error) :
  GetEmbedding env text w = ((emb, Some e), w') -> emb = [].
Proof.
  unfold GetEmbedding.
  destruct (String.eqb _ _); [by intros [= <-]|].
  destruct (embedContent _ _ _) as [?|?|sc st rb [vs|?]];
    try (by intros [= <-]); destruct (negb _); try (by intros [= <-]).
  destruct (length vs =? 0)%nat; [by intros [= <-]|discriminate].
Qed.

Lemma GetEmbedding_neo (env : Env) (text : string) :
  keeps neo (GetEmbedding env text).
Proof. by apply GetEmbedding_keeps. Qed.

(** The only error the triplet loop returns is one of [session.Run]. *)
Lemma tripletLoop_error_is_graph_error (env : Env) (triplets : list Triplet)
    (w : World) (e : error) :
  (tripletLoop env triplets w).1 = Some e ->
  exists t : nat, neo4jFault env t = Some e.
Proof.
  revert w. induction triplets as [|triplet rest IH]; intros w; cbn.
  - discriminate.
  - run. unfold tripletBody at 1 2. run.
    destruct (GetEmbedding env (Subject triplet) w) as [[se es] w1].
    cbn [fst snd]. run.
    destruct (GetEmbedding env (Predicate triplet) w1) as [[pe ep] w2].
    cbn [fst snd]. run.
    destruct (GetEmbedding env (Object triplet) w2) as [[oe eo] w3].
    cbn [fst snd]. run. unfold session_Run at 1 2.
    destruct (neo4jFault env (now w3)) as [e'|] eqn:E; cbn [fst snd].
    + intros [= ->]. by exists (now w3).
    + apply IH.
Qed.

(** C8. The three embedding calls of a triplet may each fail: the error
    is dropped and the nil slice stands for the embedding.  The edge is
    merged all the same, a new edge taking the predicate embedding as it
    came (nil when its call failed), and the loop goes on; whatever error
    the loop returns comes from the graph store, never from an
    embedding. *)
Theorem triplet_embedding_failures_tolerated
    (env : Env) (triplet : Triplet) (rest : list Triplet)
    (w w1 w2 w3 w4 : World) (se pe oe : Embedding) (es ep eo : option error)
    (rs : list string) :
  GetEmbedding env (Subject triplet) w = ((se, es), w1) ->
  GetEmbedding env (Predicate triplet) w1 = ((pe, ep), w2) ->
  GetEmbedding env (Object triplet) w2 = ((oe, eo), w3) ->
  session_Run env
    (MergeTriplet (Subject triplet) se (Predicate triplet) pe (Object triplet) oe)
    w3 = ((rs, None), w4) ->
  ((es <> None -> se = []) /\ (ep <> None -> pe = []) /\ (eo <> None -> oe = []))
  /\ tripletBody env triplet w = (None, w4)
  /\ neo w4
     = execCypher
         (MergeTriplet (Subject triplet) se (Predicate triplet) pe
            (Object triplet) oe) (neo w)
  /\ Predicates (neo w4) !! (Subject triplet, Predicate triplet, Object triplet)
     = Some (default pe
               (Predicates (neo w)
                  !! (Subject triplet, Predicate triplet, Object triplet)))
  /\ tripletLoop env (triplet :: rest) w = tripletLoop env rest w4
  /\ (forall (triplets : list Triplet) (w' : World) (e : error),
        (tripletLoop env triplets w').1 = Some e ->
        exists t : nat, neo4jFault env t = Some e).
Proof.
  intros Hs Hp Ho Hrun.
  assert (Hbody : tripletBody env triplet w = (None, w4)).
  { unfold tripletBody. run. rewrite Hs. cbn [fst snd]. run.
    rewrite Hp. cbn [fst snd]. run. rewrite Ho. cbn [fst snd]. run.
    by rewrite Hrun. }
  assert (Hneo : neo w3 = neo w).
  { pose proof (GetEmbedding_neo env (Subject triplet) w) as H1.
    pose proof (GetEmbedding_neo env (Predicate triplet) w1) as H2.
    pose proof (GetEmbedding_neo env (Object triplet) w2) as H3.
    rewrite Hs in H1. rewrite Hp in H2. rewrite Ho in H3. cbn in *. congruence. }
  apply session_Run_ok in Hrun as (Hneo4 & _ & _). rewrite Hneo in Hneo4.
  split; [|split; [exact Hbody|split; [exact Hneo4|split; [|split]]]].
  - repeat split.
    + destruct es as [e|]; [intros _|done]. by eapply GetEmbedding_nil_on_error.
    + destruct ep as [e|]; [intros _|done]. by eapply GetEmbedding_nil_on_error.
    + destruct eo as [e|]; [intros _|done]. by eapply GetEmbedding_nil_on_error.
  - rewrite Hneo4. cbn. unfold mergePredicate.
    destruct (Predicates (neo w) !! _) eqn:E; cbn; [done|].
    apply lookup_insert_eq.
  - cbn [tripletLoop]. run. by rewrite Hbody.
  - apply tripletLoop_error_is_graph_error.
Qed.

Lemma triplet_embedding_failures_tolerated_witness :
  tripletLoop (envEmbedFails "teaches") [mkTriplet "Socrates" "teaches" "Plato"]
    initWorld
  = (None,
     (session_Run (envEmbedFails "teaches")
        (MergeTriplet "Socrates" unitEmbedding "teaches" [] "Plato" unitEmbedding)
        (emit (EvEmbedContent "Plato")
           (emit (EvEmbedContent "teaches")
              (emit (EvEmbedContent "Socrates") initWorld)))).2)
  /\ Predicates
       (neo (tripletLoop (envEmbedFails "teaches")
               [mkTriplet "Socrates" "teaches" "Plato"] initWorld).2)
       !! ("Socrates"%string, "teaches"%string, "Plato"%string)
     = Some [].
Proof.
  pose proof (triplet_embedding_failures_tolerated (envEmbedFails "teaches")
                (mkTriplet "Socrates" "teaches" "Plato") [] initWorld
                _ _ _ _ unitEmbedding [] unitEmbedding None
                (Some "failed to send request to Gemini API: timeout"%string)
                None []
                ltac:(vm_compute; reflexivity) ltac:(vm_compute; reflexivity)
                ltac:(vm_compute; reflexivity) ltac:(vm_compute; reflexivity))
    as (_ & _ & _ & Hedge & Hloop & _).
  rewrite Hloop. split; [vm_compute; reflexivity|]. exact Hedge.
Defined.

(** ** Batches *)

Lemma launchLoop_valid (docs launched : list string) :
  Forall (fun t => 5 <= len (TrimSpace t)) docs ->
  launchLoop docs launched = inl (launched ++ (TrimSpace <$> docs)).
Proof.
  intros Hdocs. revert launched.
  induction Hdocs as [|t docs Ht _ IH]; intros launched; cbn.
  - by rewrite app_nil_r.
  - destruct (Z.ltb_spec (len (TrimSpace t)) 5); [lia|].
    by rewrite IH, <- app_assoc.
Qed.

(** The slice [errors] ends up with the messages of the goroutines that
    failed, in the order they ran. *)
Lemma runGoroutines_outcomes (env : Env) (launched errors : list string)
    (w : World) :
  runGoroutines env launched errors w
  = (errors ++ failures (goroutineOutcomes env launched w).1,
     (goroutineOutcomes env launched w).2).
Proof.
  revert errors w. induction launched as [|text rest IH]; intros errors w; cbn.
  - by rewrite app_nil_r.
  - run. destruct (ingest env text w) as [err w1]. cbn [fst snd].
    rewrite IH. destruct err as [e|]; cbn; [|done]. by rewrite <- app_assoc.
Qed.

Lemma goroutineOutcomes_length (env : Env) (launched : list string) (w : World) :
  length (goroutineOutcomes env launched w).1 = length launched.
Proof.
  revert w. induction launched as [|text rest IH]; intros w; cbn; [done|].
  run. cbn. by rewrite IH.
Qed.

Lemma failures_succeeded (outcomes : list (option error)) :
  (length (failures outcomes) + succeeded outcomes = length outcomes)%nat.
Proof.
  unfold failures, succeeded.
  induction outcomes as [|[e|] outcomes IH]; [done| |];
    rewrite filter_cons; case_decide; try done; cbn in *; lia.
Qed.

(** C2, as the code has it. For a batch that passes validation the
    reply is a success only when no goroutine failed; as soon as one
    failed it is a failure (500) carrying the messages of the documents
    that failed, one for each, in whatever order the goroutines appended
    them, so that the documents that went through number N minus the
    number of messages. *)
Theorem batch_fails_when_any_document_fails
    (env : Env) (docs : list string) (w : World) :
  docs <> [] ->
  Forall (fun t => 5 <= len (TrimSpace t)) docs ->
  (length (goroutineOutcomes env (TrimSpace <$> docs) w).1 = length docs
   /\ succeeded (goroutineOutcomes env (TrimSpace <$> docs) w).1
      = (length docs
         - length (failures (goroutineOutcomes env (TrimSpace <$> docs) w).1))%nat)
  /\ exists details : list string,
       Permutation details
         (failures (goroutineOutcomes env (TrimSpace <$> docs) w).1)
       /\ (AddDocuments env (Bound docs) w).1
          = (match details with
             | [] => JSON StatusOK (H_message "Documents added successfully")
             | _ :: _ =>
                 JSON StatusInternalServerError
                   (H_error_details "Failed to process some documents" details)
             end, []).
Proof.
  intros Hne Hvalid.
  pose proof (goroutineOutcomes_length env (TrimSpace <$> docs) w) as Hlen.
  rewrite length_fmap in Hlen.
  pose proof (failures_succeeded (goroutineOutcomes env (TrimSpace <$> docs) w).1)
    as Hsum.
  split; [split; [exact Hlen|lia]|].
  exists (failures (goroutineOutcomes env (TrimSpace <$> docs) w).1).
  split; [reflexivity|].
  unfold AddDocuments. destruct docs as [|d docs]; [done|].
  cbn [length Nat.eqb]. rewrite launchLoop_valid by done. cbn [app].
  run. rewrite runGoroutines_outcomes. cbn [fst snd app].
  by destruct (failures _).
Qed.

Lemma batch_fails_when_any_document_fails_witness :
  code oneOfTwoRefused.1.1 = 500
  /\ succeeded
       (goroutineOutcomes (envEmbedFails "second doc")
          (TrimSpace <$> ["hello world"; "second doc"]%string) initWorld).1
     = 1%nat.
Proof.
  destruct (batch_fails_when_any_document_fails (envEmbedFails "second doc")
              ["hello world"; "second doc"]%string initWorld
              ltac:(discriminate)
              ltac:(repeat constructor; vm_compute; discriminate))
    as [[_ Hcount] (details & Hperm & Hreply)].
  split.
  - unfold oneOfTwoRefused. rewrite Hreply. cbn [fst].
    destruct details as [|e details]; [|reflexivity].
    apply Permutation_nil in Hperm. vm_compute in Hperm. discriminate Hperm.
  - rewrite Hcount. vm_compute. reflexivity.
Defined.

(** C2 as stated fails: of two documents the first goes through (its
    row is stored) and only the second fails, yet the reply is the
    failure, 500, not a success carrying the errors. *)
Lemma partial_failure_is_reported_as_failure :
  (goroutineOutcomes (envEmbedFails "second doc")
     ["hello world"; "second doc"]%string initWorld).1
  = [None; Some "failed to send request to Gemini API: timeout"%string]
  /\ code oneOfTwoRefused.1.1 = StatusInternalServerError
  /\ body oneOfTwoRefused.1.1
     = H_error_details "Failed to process some documents"
         ["failed to send request to Gemini API: timeout"%string]
  /\ row_content <$> documents oneOfTwoRefused.2 = ["hello world"%string].
Proof. vm_compute. repeat split. Qed.

(** ** Upload *)

(** C10, as the code has it. For a content that has no blanks at either
    end and at least 5 bytes, the upload leaves the world as the batch of
    that one document does and replies with the same status; its reply is
    the fixed message or an error, never the id. *)
Theorem upload_as_single_document_batch
    (env : Env) (content : string) (w : World) :
  TrimSpace content = content ->
  5 <= len content ->
  (UploadDocumentGin env (FileContent content) w).2
  = (AddDocuments env (Bound [content]) w).2
  /\ code (UploadDocumentGin env (FileContent content) w).1
     = code (AddDocuments env (Bound [content]) w).1.1
  /\ (AddDocuments env (Bound [content]) w).1.2 = []
  /\ ((UploadDocumentGin env (FileContent content) w).1
      = JSON StatusOK (H_message "Document uploaded successfully")
      \/ exists e : string,
          (UploadDocumentGin env (FileContent content) w).1
          = JSON StatusInternalServerError (H_error e)).
Proof.
  intros Htrim Hlen. unfold UploadDocumentGin, AddDocuments.
  cbn [length Nat.eqb launchLoop]. rewrite Htrim.
  destruct (Z.ltb_spec (len content) 5); [lia|]. cbn [app runGoroutines].
  unfold ingest. run.
  destruct (GetEmbedding env content w) as [[embedding [e|]] w1]; cbn [fst snd].
  - run. cbn. eauto 10.
  - run. destruct (AddDocument env content embedding w1) as [[e|] w2];
      cbn [fst snd]; run; cbn; eauto 10.
Qed.

Lemma upload_as_single_document_batch_witness :
  (UploadDocumentGin envHybrid (FileContent "hello world") initWorld).2
  = (AddDocuments envHybrid (Bound ["hello world"%string]) initWorld).2
  /\ code (UploadDocumentGin envHybrid (FileContent "hello world") initWorld).1
     = 200.
Proof.
  destruct (upload_as_single_document_batch envHybrid "hello world" initWorld
              ltac:(vm_compute; reflexivity) ltac:(vm_compute; discriminate))
    as (Hworld & Hcode & _).
  split; [exact Hworld|]. rewrite Hcode. vm_compute. reflexivity.
Defined.

(** C10 as stated fails: the upload neither checks the length nor trims.
    The two-byte file "hi" is refused as a batch and stored as an
    upload; a file with blanks around its text is stored with them. *)
Lemma upload_skips_validation_and_trimming :
  AddDocuments envVectorOnly (Bound ["hi"%string]) initWorld
  = ((JSON StatusBadRequest
        (H_error "Document text must be at least 5 characters long"), []),
     initWorld)
  /\ (UploadDocumentGin envVectorOnly (FileContent "hi") initWorld).1
     = JSON StatusOK (H_message "Document uploaded successfully")
  /\ row_content <$>
       documents (UploadDocumentGin envVectorOnly (FileContent "hi") initWorld).2
     = ["hi"%string]
  /\ row_content <$>
       documents (UploadDocumentGin envVectorOnly
                    (FileContent "  hello world ") initWorld).2
     = ["  hello world "%string]
  /\ row_content <$>
       documents (AddDocuments envVectorOnly
                    (Bound ["  hello world "%string]) initWorld).2
     = ["hello world"%string].
Proof. vm_compute. repeat split. Qed.

(** ** Stored token embeddings never change *)

Section StableTokens.
Variable env : Env.
Variable name : string.
Variable e : Embedding.

Lemma keeps_neo_stored {A} (m : M A) : keeps neo m -> preserves (storedAs name e) m.
Proof. intros Hk w. unfold storedAs. by rewrite Hk. Qed.

Lemma session_Run_stored (stmt : Cypher) :
  preserves (storedAs name e) (session_Run env stmt).
Proof.
  intros w Hw. unfold storedAs.
  destruct (session_Run_neo env stmt w) as [-> | ->]; [done|].
  by apply execCypher_token_kept.
Qed.

Lemma tokenLoop_stored (docID : Z) (tokens : list string) :
  preserves (storedAs name e) (tokenLoop env docID tokens).
Proof.
  induction tokens as [|token rest IH]; cbn; [apply preserves_ret|].
  apply preserves_bind; [|intros [err|]; [apply preserves_ret|apply IH]].
  unfold tokenBody. apply preserves_bind.
  - apply keeps_neo_stored, GetEmbedding_neo.
  - intros [tokenEmbedding [err|]]; [apply preserves_ret|].
    apply preserves_bind; [apply session_Run_stored|].
    intros [rs err]. apply preserves_ret.
Qed.

Lemma tripletLoop_stored (triplets : list Triplet) :
  preserves (storedAs name e) (tripletLoop env triplets).
Proof.
  induction triplets as [|triplet rest IH]; cbn; [apply preserves_ret|].
  apply preserves_bind; [|intros [err|]; [apply preserves_ret|apply IH]].
  unfold tripletBody.
  apply preserves_bind; [apply keeps_neo_stored, GetEmbedding_neo|].
  intros [subjectEmb ?].
  apply preserves_bind; [apply keeps_neo_stored, GetEmbedding_neo|].
  intros [predicateEmb ?].
  apply preserves_bind; [apply keeps_neo_stored, GetEmbedding_neo|].
  intros [objectEmb ?].
  apply preserves_bind; [apply session_Run_stored|].
  intros [rs err]. apply preserves_ret.
Qed.

(** Whatever a document brings, and whether its ingestion succeeds or
    not, a token that has an embedding keeps it. *)
Lemma AddDocument_stored (content : string) (embedding : Embedding) :
  preserves (storedAs name e) (AddDocument env content embedding).
Proof.
  unfold AddDocument. apply preserves_bind.
  - apply keeps_neo_stored. intros w. unfold insertDocument.
    by destruct (pgFault _ _).
  - intros [docID [err|]]; [apply preserves_ret|].
    destruct (neo4jDriver env); [|apply preserves_ret].
    unfold AddTokenAndTriplets. apply preserves_bind.
    + apply keeps_neo_stored. by apply extractTokensAndTriplets_keeps.
    + intros [tokens triplets].
      apply preserves_bind; [apply session_Run_stored|].
      intros [rs [err|]]; [apply preserves_ret|].
      apply preserves_bind; [apply tokenLoop_stored|].
      intros [err|]; [apply preserves_ret|apply tripletLoop_stored].
Qed.

End StableTokens.

(** ** The Gemini client *)

(** What a successful [GetEmbedding] tells. *)
Lemma GetEmbedding_ok_inv
    (env : Env) (text : string) (w w' : World) (emb : Embedding) :
  GetEmbedding env text w = ((emb, None), w') ->
  emb <> []
  /\ GEMINI_API_KEY env <> ""%string
  /\ w' = emit (EvEmbedContent text) w
  /\ exists Status respBody : string,
       embedContent env (now w) text = Responded 200 Status respBody (inl emb).
Proof.
  unfold GetEmbedding.
  destruct (String.eqb_spec (GEMINI_API_KEY env) ""); [discriminate|].
  destruct (embedContent _ _ _) as [?|?|sc st rb [vs|?]]; try discriminate;
    destruct (Z.eqb_spec sc 200) as [->|?]; cbn [negb]; try discriminate.
  destruct vs as [|v vs]; cbn; [discriminate|].
  intros [= <- <-]. repeat split; try done. by exists st, rb.
Qed.

(** X1. When [GetEmbedding] returns without an error, the embedding is
    not empty, exactly one request was sent, and the answer was a 200
    whose body decoded to that very vector. *)
Theorem GetEmbedding_success
    (env : Env) (text : string) (w w' : World) (emb : Embedding) :
  GetEmbedding env text w = ((emb, None), w') ->
  emb <> []
  /\ GEMINI_API_KEY env <> ""%string
  /\ w' = emit (EvEmbedContent text) w
  /\ exists Status respBody : string,
       embedContent env (now w) text = Responded 200 Status respBody (inl emb).
Proof.
  unfold GetEmbedding.
  destruct (String.eqb_spec (GEMINI_API_KEY env) ""); [discriminate|].
  destruct (embedContent _ _ _) as [?|?|sc st rb [vs|?]]; try discriminate;
    destruct (Z.eqb_spec sc 200) as [->|?]; cbn [negb]; try discriminate.
  destruct vs as [|v vs]; cbn; [discriminate|].
  intros [= <- <-]. repeat split; try done. by exists st, rb.
Qed.

Lemma GetEmbedding_success_witness :
  GetEmbedding envHybrid "hello world" initWorld
  = ((unitEmbedding, None), emit (EvEmbedContent "hello world") initWorld)
  /\ unitEmbedding <> [].
Proof.
  assert (H : GetEmbedding envHybrid "hello world" initWorld
              = ((unitEmbedding, None),
                 emit (EvEmbedContent "hello world") initWorld))
    by (vm_compute; reflexivity).
  split; [exact H|]. exact (proj1 (GetEmbedding_success _ _ _ _ _ H)).
Defined.

(** [GenerateResponse] hands back the empty text with every error. *)
Lemma GenerateResponse_empty_on_error
    (env : Env) (query context : string) (w w' : World) (text : string)
    (e : error) :
  GenerateResponse env query context w = ((text, Some e), w') -> text = ""%string.
Proof.
  unfold GenerateResponse.
  destruct (String.eqb _ _); [by intros [= <-]|].
  destruct (generateContent _ _ _) as [?|?|sc st rb [[|[|??] ?]|?]];
    try (by intros [= <-]); destruct (negb _); try (by intros [= <-]);
    discriminate.
Qed.

Lemma GenerateResponse_ok_iff
    (env : Env) (query context : string) (w w' : World) (text : string) :
  GenerateResponse env query context w = ((text, None), w')
  <-> (GEMINI_API_KEY env <> ""%string
       /\ w' = emit (EvGenerateContent (prompt_of query context)) w
       /\ exists (Status respBody : string) (parts : list string)
                 (candidates : list (list string)),
            generateContent env (now w) (prompt_of query context)
            = Responded 200 Status respBody (inl ((text :: parts) :: candidates))).
Proof.
  unfold GenerateResponse. split.
  - destruct (String.eqb_spec (GEMINI_API_KEY env) ""); [discriminate|].
    destruct (generateContent _ _ _) as [?|?|sc st rb [[|[|t ps] cs]|?]];
      try discriminate;
      destruct (Z.eqb_spec sc 200) as [->|?]; cbn [negb]; try discriminate.
    intros [= <- <-]. repeat split; try done. by exists st, rb, ps, cs.
  - intros (Hkey & -> & st & rb & ps & cs & ->).
    by destruct (String.eqb_spec (GEMINI_API_KEY env) "").
Qed.

(** X2. [GenerateResponse] succeeds exactly when the key is set and the
    answer to the prompt is a 200 whose body decodes to at least one
    candidate with at least one part; the text returned is the first
    part of the first candidate. *)
Theorem GenerateResponse_success_iff
    (env : Env) (query context : string) (w w' : World) (text : string) :
  GenerateResponse env query context w = ((text, None), w')
  <-> (GEMINI_API_KEY env <> ""%string
       /\ w' = emit (EvGenerateContent (prompt_of query context)) w
       /\ exists (Status respBody : string) (parts : list string)
                 (candidates : list (list string)),
            generateContent env (now w) (prompt_of query context)
            = Responded 200 Status respBody (inl ((text :: parts) :: candidates))).
Proof.
  unfold GenerateResponse. split.
  - destruct (String.eqb_spec (GEMINI_API_KEY env) ""); [discriminate|].
    destruct (generateContent _ _ _) as [?|?|sc st rb [[|[|t ps] cs]|?]];
      try discriminate;
      destruct (Z.eqb_spec sc 200) as [->|?]; cbn [negb]; try discriminate.
    intros [= <- <-]. repeat split; try done. by exists st, rb, ps, cs.
  - intros (Hkey & -> & st & rb & ps & cs & ->).
    by destruct (String.eqb_spec (GEMINI_API_KEY env) "").
Qed.

Lemma GenerateResponse_success_iff_witness :
  GenerateResponse envHybrid "which letter?" "alpha beta" twoDocuments
  = (("answer"%string, None),
     emit (EvGenerateContent (prompt_of "which letter?" "alpha beta"))
       twoDocuments).
Proof.
  apply (proj2 (GenerateResponse_success_iff envHybrid "which letter?"
                  "alpha beta" twoDocuments _ "answer")).
  split; [discriminate|]. split; [reflexivity|].
  by exists "200 OK"%string, "{}"%string, [], [].
Defined.

(** ** Without a Gemini key *)

Lemma launchLoop_inl (docs launched launched' : list string) :
  launchLoop docs launched = inl launched' ->
  launched' = launched ++ (TrimSpace <$> docs)
  /\ Forall (fun t => 5 <= len (TrimSpace t)) docs.
Proof.
  revert launched. induction docs as [|d docs IH]; intros launched; cbn.
  - intros [= <-]. by rewrite app_nil_r.
  - destruct (Z.ltb_spec (len (TrimSpace d)) 5); [discriminate|].
    intros H. apply IH in H as [-> HF]. rewrite <- app_assoc.
    split; [done|]. constructor; [lia|done].
Qed.

Section NoKey.
Variable env : Env.
Hypothesis no_key : GEMINI_API_KEY env = ""%string.

Lemma GetEmbedding_no_key (text : string) (w : World) :
  GetEmbedding env text w
  = (([], Some "GEMINI_API_KEY environment variable not set"%string), w).
Proof. unfold GetEmbedding. by rewrite no_key. Qed.

Lemma runGoroutines_no_key (launched errors : list string) (w : World) :
  runGoroutines env launched errors w
  = (errors
     ++ replicate (length launched)
          "GEMINI_API_KEY environment variable not set"%string, w).
Proof.
  revert errors. induction launched as [|text rest IH]; intros errors; cbn.
  - by rewrite app_nil_r.
  - run. unfold ingest. run. rewrite GetEmbedding_no_key. cbn [fst snd]. run.
    rewrite IH. by rewrite <- app_assoc.
Qed.

End NoKey.

(** What [serve] makes of a batch: the reply of the handler, and the
    world once the goroutines it left behind have run. *)
Lemma serve_add_run (env : Env) (req : Binding (list string)) (w : World) :
  serve env (POST_add req) w
  = ((AddDocuments env req w).1.1,
     (runGoroutines env (AddDocuments env req w).1.2 []
        (AddDocuments env req w).2).2).
Proof.
  cbn [serve]. rewrite run_bind.
  destruct (AddDocuments env req w) as [[resp detached] w1]. cbn [fst snd].
  rewrite run_bind. reflexivity.
Qed.

Lemma AddDocuments_no_key (env : Env) (req : Binding (list string)) (w : World) :
  GEMINI_API_KEY env = ""%string ->
  (AddDocuments env req w).2 = w
  /\ code (AddDocuments env req w).1.1 <> StatusOK.
Proof.
  intros Hkey. unfold AddDocuments. destruct req as [err|docs]; [by cbn|].
  destruct docs as [|d docs]; [by cbn|]. cbn [length Nat.eqb].
  destruct (launchLoop (d :: docs) []) as [launched|launched] eqn:E; [|by cbn].
  rewrite run_bind, runGoroutines_no_key by done. cbn [fst snd app].
  apply launchLoop_inl in E as [-> _]. by cbn.
Qed.

(** X3. Without a Gemini key no request reaches any collaborator or
    store: the world, trace included, is left as it was and the reply is
    never a success.  A batch that passes validation is answered with
    one copy of the message for each of its documents. *)
Theorem no_api_key_no_effect (env : Env) (r : Request) (w : World) :
  GEMINI_API_KEY env = ""%string ->
  (serve env r w).2 = w
  /\ code (serve env r w).1 <> StatusOK
  /\ (forall docs : list string,
        docs <> [] -> Forall (fun t => 5 <= len (TrimSpace t)) docs ->
        (AddDocuments env (Bound docs) w).1.1
        = JSON StatusInternalServerError
            (H_error_details "Failed to process some documents"
               (replicate (length docs)
                  "GEMINI_API_KEY environment variable not set"%string))).
Proof.
  intros Hkey. split; [|split].
  - destruct r as [req|useGraph [err|query]|[| |content]]; cbn; try done.
    + fold (serve env (POST_add req)). rewrite serve_add_run. cbn [snd].
      rewrite runGoroutines_no_key by done. cbn [snd].
      by apply AddDocuments_no_key.
    + destruct (len (TrimSpace query) <? 3); [done|]. run.
      by rewrite GetEmbedding_no_key.
    + run. by rewrite GetEmbedding_no_key.
  - destruct r as [req|useGraph [err|query]|[| |content]]; cbn; try done.
    + fold (serve env (POST_add req)). rewrite serve_add_run. cbn [fst].
      by apply AddDocuments_no_key.
    + destruct (len (TrimSpace query) <? 3); [done|]. run.
      by rewrite GetEmbedding_no_key.
    + run. by rewrite GetEmbedding_no_key.
  - intros docs Hne Hvalid. unfold AddDocuments.
    destruct docs as [|d docs]; [done|]. cbn [length Nat.eqb].
    rewrite launchLoop_valid by done. run.
    rewrite runGoroutines_no_key by done. cbn [fst snd app].
    by rewrite length_fmap.
Qed.

Lemma no_api_key_no_effect_witness :
  serve envNoKey (POST_add (Bound ["hello world"; "second doc"]%string))
    oneDocument
  = (JSON 500
       (H_error_details "Failed to process some documents"
          ["GEMINI_API_KEY environment variable not set";
           "GEMINI_API_KEY environment variable not set"]%string),
     oneDocument).
Proof.
  pose proof (no_api_key_no_effect envNoKey
                (POST_add (Bound ["hello world"; "second doc"]%string))
                oneDocument eq_refl) as (Hw & _ & _).
  rewrite (surjective_pairing (serve _ _ _)), Hw. f_equal.
Defined.

(** ** Every request is a sequence of elementary moves *)

Lemma walks_ret {A} (a : A) : walks (ret a).
Proof. intros w. apply rtc_refl. Qed.

Lemma walks_bind {A B} (m : M A) (k : A -> M B) :
  walks m -> (forall a, walks (k a)) -> walks (m ≫= k).
Proof.
  intros Hm Hk w. rewrite run_bind.
  eapply rtc_trans; [apply Hm|apply Hk].
Qed.

Lemma hasRow_step (docID : Z) (content : string) (w w' : World) :
  step w w' -> hasRow docID content w -> hasRow docID content w'.
Proof.
  intros Hstep (r & Hr & Hid & Hc). exists r. split; [|done].
  destruct Hstep; cbn; try done. apply elem_of_app. by left.
Qed.

Lemma hasRow_steps (docID : Z) (content : string) (w w' : World) :
  rtc step w w' -> hasRow docID content w -> hasRow docID content w'.
Proof. induction 1; eauto using hasRow_step. Qed.

Section Walks.
Variable env : Env.

Lemma GetEmbedding_walks (text : string) : walks (GetEmbedding env text).
Proof.
  intros w. destruct (GetEmbedding_emits env text w) as [-> | ->];
    [apply rtc_refl|apply rtc_once, step_emit].
Qed.

Lemma GenerateResponse_walks (query context : string) :
  walks (GenerateResponse env query context).
Proof.
  intros w. destruct (GenerateResponse_emits env query context w) as [-> | ->];
    [apply rtc_refl|apply rtc_once, step_emit].
Qed.

Lemma selectNearest_walks (q : Embedding) : walks (selectNearest env q).
Proof. intros w. rewrite selectNearest_emits. apply rtc_once, step_emit. Qed.

Lemma extractTokensAndTriplets_walks (content : string) :
  walks (extractTokensAndTriplets env content).
Proof.
  intros w. rewrite extractTokensAndTriplets_emits. apply rtc_once, step_emit.
Qed.

Lemma session_Run_cases (stmt : Cypher) (w : World) :
  (session_Run env stmt w).2 = emit (EvCypher stmt) w
  \/ (session_Run env stmt w).2 = executed stmt w.
Proof. unfold session_Run. destruct (neo4jFault _ _); [by left|by right]. Qed.

Lemma session_Run_walks (stmt : Cypher) :
  (forall docID content, stmt <> MergeDocument docID content) ->
  walks (session_Run env stmt).
Proof.
  intros Hstmt w. destruct (session_Run_cases stmt w) as [-> | ->];
    apply rtc_once; [apply step_emit|by apply step_cypher].
Qed.

Lemma insertDocument_cases (content : string) (embedding : Embedding)
    (w : World) :
  (exists e, insertDocument env content embedding w
             = ((0, Some e), emit (EvInsert content embedding) w))
  \/ insertDocument env content embedding w
     = ((documents_id_seq w + 1, None), inserted content embedding w).
Proof.
  unfold insertDocument. destruct (pgFault _ _) as [e|]; [left; by exists e|by right].
Qed.

Lemma tokenLoop_walks (docID : Z) (tokens : list string) :
  walks (tokenLoop env docID tokens).
Proof.
  induction tokens as [|token rest IH]; cbn; [apply walks_ret|].
  apply walks_bind; [|intros [e|]; [apply walks_ret|apply IH]].
  unfold tokenBody. apply walks_bind; [apply GetEmbedding_walks|].
  intros [tokenEmbedding [e|]]; [apply walks_ret|].
  apply walks_bind; [by apply session_Run_walks|].
  intros [rs err]. apply walks_ret.
Qed.

Lemma tripletLoop_walks (triplets : list Triplet) :
  walks (tripletLoop env triplets).
Proof.
  induction triplets as [|triplet rest IH]; cbn; [apply walks_ret|].
  apply walks_bind; [|intros [e|]; [apply walks_ret|apply IH]].
  unfold tripletBody.
  apply walks_bind; [apply GetEmbedding_walks|]. intros [subjectEmb ?].
  apply walks_bind; [apply GetEmbedding_walks|]. intros [predicateEmb ?].
  apply walks_bind; [apply GetEmbedding_walks|]. intros [objectEmb ?].
  apply walks_bind; [by apply session_Run_walks|].
  intros [rs err]. apply walks_ret.
Qed.

Lemma AddTokenAndTriplets_walks (content : string) (embedding : Embedding)
    (docID : Z) (w : World) :
  hasRow docID content w ->
  rtc step w (AddTokenAndTriplets env content embedding docID w).2.
Proof.
  intros Hrow. unfold AddTokenAndTriplets. run.
  rewrite extractTokensAndTriplets_emits.
  destruct (extractTokensAndTriplets env content w).1 as [tokens triplets].
  eapply rtc_l; [apply (step_emit w (EvExtract content))|].
  set (w1 := emit (EvExtract content) w).
  assert (Hrow1 : hasRow docID content w1)
    by (eapply hasRow_step; [apply step_emit|done]).
  run.
  assert (Hdoc : rtc step w1 (session_Run env (MergeDocument docID content) w1).2).
  { destruct (session_Run_cases (MergeDocument docID content) w1) as [-> | ->];
      apply rtc_once; [apply step_emit|by apply step_merge_document]. }
  destruct (session_Run env (MergeDocument docID content) w1) as [[rs [e|]] w2];
    cbn [fst snd] in *; [done|].
  eapply rtc_trans; [exact Hdoc|]. run.
  pose proof (tokenLoop_walks docID tokens w2) as Htok.
  destruct (tokenLoop env docID tokens w2) as [[e|] w3]; cbn [fst snd] in *;
    [done|].
  eapply rtc_trans; [exact Htok|apply tripletLoop_walks].
Qed.

Lemma AddDocument_walks (content : string) (embedding : Embedding) (w : World) :
  embedding <> [] -> rtc step w (AddDocument env content embedding w).2.
Proof.
  intros Hemb. unfold AddDocument. run.
  destruct (insertDocument_cases content embedding w) as [[e ->]| ->];
    cbn [fst snd].
  - apply rtc_once, step_emit.
  - eapply rtc_l; [by apply step_insert|].
    destruct (neo4jDriver env); [|apply rtc_refl].
    apply AddTokenAndTriplets_walks.
    exists (mkRow (documents_id_seq w + 1) content embedding).
    split; [|done]. cbn. apply elem_of_app. right.
    by apply list_elem_of_singleton.
Qed.

Lemma ingest_walks (text : string) : walks (ingest env text).
Proof.
  intros w. unfold ingest. run.
  pose proof (GetEmbedding_walks text w) as Hget.
  destruct (GetEmbedding env text w) as [[embedding [e|]] w1] eqn:E;
    cbn [fst snd] in *; [done|].
  eapply rtc_trans; [exact Hget|].
  apply AddDocument_walks. by apply GetEmbedding_ok_inv in E as [? _].
Qed.

Lemma runGoroutines_walks (launched errors : list string) :
  walks (runGoroutines env launched errors).
Proof.
  revert errors. induction launched as [|text rest IH]; intros errors; cbn.
  - apply walks_ret.
  - apply walks_bind; [apply ingest_walks|]. intros err. apply IH.
Qed.

Lemma AddDocuments_walks (req : Binding (list string)) :
  walks (AddDocuments env req).
Proof.
  unfold AddDocuments. destruct req as [err|docs]; [apply walks_ret|].
  destruct (length docs =? 0)%nat; [apply walks_ret|].
  destruct (launchLoop docs []); [|apply walks_ret].
  apply walks_bind; [apply runGoroutines_walks|].
  intros errors. destruct (0 <? length errors)%nat; apply walks_ret.
Qed.

Lemma SearchDocuments_walks (q : Embedding) (useGraph : bool) :
  walks (SearchDocuments env q useGraph).
Proof.
  unfold SearchDocuments. apply walks_bind; [apply selectNearest_walks|].
  intros [pgContent [e|]]; [apply walks_ret|].
  destruct (negb useGraph || negb (neo4jDriver env)); [apply walks_ret|].
  apply walks_bind; [by apply session_Run_walks|].
  intros [result [e|]]; [apply walks_ret|].
  cbn zeta. destruct (negb _); apply walks_ret.
Qed.

Lemma Query_walks (useGraph : bool) (req : Binding string) :
  walks (Query env useGraph req).
Proof.
  unfold Query. destruct req as [err|query]; [apply walks_ret|].
  destruct (len (TrimSpace query) <? 3); [apply walks_ret|].
  apply walks_bind; [apply GetEmbedding_walks|].
  intros [embedding [e|]]; [apply walks_ret|].
  apply walks_bind; [apply SearchDocuments_walks|].
  intros [context [e|]]; [apply walks_ret|].
  apply walks_bind; [apply GenerateResponse_walks|].
  intros [response [e|]]; apply walks_ret.
Qed.

Lemma UploadDocumentGin_walks (req : Upload) : walks (UploadDocumentGin env req).
Proof.
  intros w. unfold UploadDocumentGin.
  destruct req as [| |content]; try apply rtc_refl. run.
  pose proof (GetEmbedding_walks content w) as Hget.
  destruct (GetEmbedding env content w) as [[embedding [e|]] w1] eqn:E;
    cbn [fst snd] in *; [done|].
  eapply rtc_trans; [exact Hget|]. run.
  apply GetEmbedding_ok_inv in E as [Hemb _].
  pose proof (AddDocument_walks content embedding w1 Hemb) as Hadd.
  by destruct (AddDocument env content embedding w1) as [[e|] w2].
Qed.

Lemma serve_walks (r : Request) : walks (serve env r).
Proof.
  destruct r as [req|useGraph req|req]; cbn.
  - apply walks_bind; [apply AddDocuments_walks|]. intros [resp detached].
    apply walks_bind; [apply runGoroutines_walks|]. intros. apply walks_ret.
  - apply Query_walks.
  - apply UploadDocumentGin_walks.
Qed.

Lemma reachable_walks (w : World) : reachable env w -> rtc step initWorld w.
Proof.
  induction 1 as [|w r _ IH]; [apply rtc_refl|].
  eapply rtc_trans; [exact IH|apply serve_walks].
Qed.

End Walks.

(** ** Nothing is lost *)

Lemma mergeToken_subseteq (name : string) (e : Embedding)
    (tokens : gmap string Embedding) :
  tokens ⊆ mergeToken name e tokens.
Proof.
  unfold mergeToken. destruct (tokens !! name) eqn:E; [done|].
  by apply insert_subseteq.
Qed.

Lemma mergePredicate_subseteq (key : string * string * string) (e : Embedding)
    (edges : gmap (string * string * string) Embedding) :
  edges ⊆ mergePredicate key e edges.
Proof.
  unfold mergePredicate. destruct (edges !! key) eqn:E; [done|].
  by apply insert_subseteq.
Qed.

Lemma execCypher_grows (stmt : Cypher) (g : Graph) :
  graphGrows g (execCypher stmt g).
Proof.
  unfold graphGrows. destruct stmt; cbn; repeat split; try done.
  - set_solver.
  - apply mergeToken_subseteq.
  - set_solver.
  - etrans; apply mergeToken_subseteq.
  - apply mergePredicate_subseteq.
Qed.

Lemma graphGrows_refl (g : Graph) : graphGrows g g.
Proof. by unfold graphGrows. Qed.

Lemma grows_refl (w : World) : grows w w.
Proof.
  unfold grows. split; [done|]. split; [lia|]. split; [|done].
  apply graphGrows_refl.
Qed.

Lemma grows_trans (w1 w2 w3 : World) : grows w1 w2 -> grows w2 w3 -> grows w1 w3.
Proof.
  unfold grows, graphGrows.
  intros (Hd1 & Hs1 & (Ha1 & Hb1 & Hc1 & He1) & Ht1)
         (Hd2 & Hs2 & (Ha2 & Hb2 & Hc2 & He2) & Ht2).
  split; [by etrans|]. split; [lia|].
  split; [|by etrans]. split; [by etrans|]. split; [by etrans|].
  split; by etrans.
Qed.

Lemma step_grows (w w' : World) : step w w' -> grows w w'.
Proof.
  unfold grows.
  destruct 1 as [w ev|w content embedding _|w docID content _|w stmt _];
    unfold emit, inserted, executed; cbn [documents documents_id_seq neo trace];
    (split; [|split; [|split]]);
    try lia; try (by apply prefix_app_r); try done;
    try apply graphGrows_refl; apply execCypher_grows.
Qed.

Lemma steps_grow (w w' : World) : rtc step w w' -> grows w w'.
Proof.
  induction 1 as [|w1 w2 w3 Hstep _ IH]; [apply grows_refl|].
  eapply grows_trans; [by apply step_grows|exact IH].
Qed.

(** X4. Serving a request never deletes or changes anything stored:
    the table keeps its rows and gets new ones at its end, the id
    sequence does not go back, and the graph keeps its Document nodes,
    its Tokens and PREDICATE edges with their embeddings, and its
    CONTAINS edges. *)
Theorem serve_only_adds (env : Env) (r : Request) (w : World) :
  grows w (serve env r w).2.
Proof.
  pose proof (serve_walks env r w) as Hwalk.
  induction Hwalk as [|w1 w2 w3 Hstep _ IH]; [apply grows_refl|].
  eapply grows_trans; [by apply step_grows|exact IH].
Qed.

(** ** The table *)

Lemma tableOk_step (w w' : World) : step w w' -> tableOk w -> tableOk w'.
Proof.
  unfold tableOk.
  destruct 1 as [w ev|w content embedding Hemb|w docID content _|w stmt _];
    cbn; try done.
  intros (Hseq & Hnd & Hrows). split; [lia|]. split.
  - rewrite fmap_app. apply NoDup_app. split; [done|]. split.
    + intros id Hin Hnew. cbn in Hnew. apply list_elem_of_singleton in Hnew.
      apply list_elem_of_fmap in Hin as (r & -> & Hr).
      rewrite Forall_forall in Hrows. apply Hrows in Hr. lia.
    + cbn. apply NoDup_singleton.
  - apply Forall_app. split.
    + eapply Forall_impl; [exact Hrows|]. cbn. intros r [? ?]. split; [lia|done].
    + apply Forall_singleton. cbn. split; [lia|done].
Qed.

Lemma tableOk_steps (w w' : World) : rtc step w w' -> tableOk w -> tableOk w'.
Proof. induction 1; eauto using tableOk_step. Qed.

Lemma tableOk_init : tableOk initWorld.
Proof. unfold tableOk. cbn. repeat split; [lia|constructor|constructor]. Qed.

Lemma reachable_tableOk (env : Env) (w : World) : reachable env w -> tableOk w.
Proof.
  intros H. eapply tableOk_steps; [by eapply reachable_walks|apply tableOk_init].
Qed.

(** X5. In every state the server reaches, the rows of the table have
    pairwise distinct ids, each positive and at most the last id given
    out, and no row has an empty embedding. *)
Theorem rows_have_distinct_ids (env : Env) (w : World) :
  reachable env w -> tableOk w.
Proof.
  intros H. eapply tableOk_steps; [by eapply reachable_walks|apply tableOk_init].
Qed.

Lemma rows_have_distinct_ids_witness :
  reachable envHybrid twoDocuments /\ tableOk twoDocuments.
Proof.
  assert (H : reachable envHybrid twoDocuments)
    by apply reachable_serve, reachable_init.
  split; [exact H|]. exact (rows_have_distinct_ids envHybrid twoDocuments H).
Defined.

(** ** Document nodes are copies of rows *)

Lemma mirrorsRows_step (w w' : World) :
  step w w' -> mirrorsRows w -> mirrorsRows w'.
Proof.
  intros Hstep Hm id content Hin.
  assert (Hold : (id, content) ∈ Documents (neo w) -> hasRow id content w')
    by (intros H; eapply hasRow_step; [exact Hstep|by apply Hm]).
  destruct Hstep as [w ev|w c e _|w docID c Hrow|w stmt Hstmt]; cbn in Hin.
  - by apply Hold.
  - by apply Hold.
  - apply elem_of_union in Hin as [Hin|Hin]; [|by apply Hold].
    apply elem_of_singleton in Hin as [= -> ->].
    eapply hasRow_step; [by apply step_merge_document|done].
  - apply Hold. destruct stmt; try done. by destruct (Hstmt docID content0).
Qed.

Lemma mirrorsRows_steps (w w' : World) :
  rtc step w w' -> mirrorsRows w -> mirrorsRows w'.
Proof. induction 1; eauto using mirrorsRows_step. Qed.

Lemma rows_same_id (rows : list Row) (r1 r2 : Row) :
  NoDup (row_id <$> rows) -> r1 ∈ rows -> r2 ∈ rows ->
  row_id r1 = row_id r2 -> r1 = r2.
Proof.
  induction rows as [|r rows IH]; [by intros _ ?%elem_of_nil|].
  rewrite fmap_cons, NoDup_cons. intros [Hnotin Hnd] H1 H2 Hid.
  apply elem_of_cons in H1 as [->|H1]; apply elem_of_cons in H2 as [->|H2];
    try done.
  - destruct Hnotin. rewrite Hid. apply list_elem_of_fmap. by exists r2.
  - destruct Hnotin. rewrite <- Hid. apply list_elem_of_fmap. by exists r1.
  - by apply IH.
Qed.

(** X6. In every state the server reaches, each Document node of the
    graph carries the id and the content of one row of the table, and no
    two Document nodes have the same id. *)
Theorem document_nodes_copy_rows (env : Env) (w : World) :
  reachable env w ->
  mirrorsRows w
  /\ (forall (id : Z) (content1 content2 : string),
        (id, content1) ∈ Documents (neo w) ->
        (id, content2) ∈ Documents (neo w) -> content1 = content2).
Proof.
  intros Hreach.
  assert (Hm : mirrorsRows w).
  { eapply mirrorsRows_steps; [by eapply reachable_walks|].
    intros id content Hin. by apply not_elem_of_empty in Hin. }
  split; [exact Hm|]. intros id c1 c2 H1 H2.
  destruct (Hm id c1 H1) as (r1 & Hr1 & Hid1 & <-).
  destruct (Hm id c2 H2) as (r2 & Hr2 & Hid2 & <-).
  destruct (reachable_tableOk env w Hreach) as (_ & Hnd & _).
  f_equal. eapply rows_same_id; [exact Hnd|done|done|congruence].
Qed.

Lemma document_nodes_copy_rows_witness :
  reachable envHybrid twoDocuments /\ mirrorsRows twoDocuments.
Proof.
  assert (H : reachable envHybrid twoDocuments)
    by apply reachable_serve, reachable_init.
  split; [exact H|].
  exact (proj1 (document_nodes_copy_rows envHybrid twoDocuments H)).
Defined.

(** ** Edges join nodes that exist *)

Lemma mergeToken_present (name : string) (e : Embedding)
    (tokens : gmap string Embedding) :
  is_Some (mergeToken name e tokens !! name).
Proof.
  unfold mergeToken. destruct (tokens !! name) eqn:E; [by rewrite E|].
  rewrite lookup_insert_eq. by eexists.
Qed.

Lemma mergeToken_still_present (name name' : string) (e' : Embedding)
    (tokens : gmap string Embedding) :
  is_Some (tokens !! name) -> is_Some (mergeToken name' e' tokens !! name).
Proof. intros [e He]. exists e. by apply mergeToken_kept. Qed.

Lemma mergePredicate_inv (key key' : string * string * string) (e : Embedding)
    (edges : gmap (string * string * string) Embedding) :
  is_Some (mergePredicate key e edges !! key') ->
  key' = key \/ is_Some (edges !! key').
Proof.
  unfold mergePredicate. destruct (edges !! key) eqn:E; [by right|].
  destruct (decide (key = key')) as [->|Hne]; [by left|].
  rewrite lookup_insert_ne by done. by right.
Qed.

Lemma execCypher_wellFormed (stmt : Cypher) (g : Graph) :
  wellFormed g -> wellFormed (execCypher stmt g).
Proof.
  intros [Hc Hp]. destruct stmt as [docID content|name e docID|s se p pe o oe|q];
    cbn [execCypher]; [| | |by split].
  - split; cbn; [|done]. intros token d Hin.
    destruct (Hc token d Hin) as [Ht Hd]. split; [done|].
    apply elem_of_union. by right.
  - split; cbn; [|intros s p o Hs; destruct (Hp s p o Hs);
                   split; by apply mergeToken_still_present].
    intros token d Hin. apply elem_of_union in Hin as [Hin|Hin].
    + apply elem_of_map in Hin as (d' & [= -> ->] & Hd').
      split; [apply mergeToken_present|].
      unfold matchDocument in Hd'. by apply elem_of_filter in Hd' as [_ ?].
    + destruct (Hc token d Hin) as [Ht Hd].
      split; [by apply mergeToken_still_present|done].
  - split; cbn.
    + intros token d Hin. destruct (Hc token d Hin) as [Ht Hd].
      split; [by do 2 apply mergeToken_still_present|done].
    + intros s' p' o' Hs.
      apply mergePredicate_inv in Hs as [[= -> -> ->]|Hs].
      * split; [apply mergeToken_still_present|]; apply mergeToken_present.
      * destruct (Hp s' p' o' Hs).
        split; by do 2 apply mergeToken_still_present.
Qed.

Lemma wellFormed_step (w w' : World) :
  step w w' -> wellFormed (neo w) -> wellFormed (neo w').
Proof.
  destruct 1; unfold emit, inserted, executed; cbn [neo]; try done;
    apply execCypher_wellFormed.
Qed.

Lemma wellFormed_steps (w w' : World) :
  rtc step w w' -> wellFormed (neo w) -> wellFormed (neo w').
Proof. induction 1; eauto using wellFormed_step. Qed.

(** X7. In every state the server reaches, each CONTAINS edge goes from
    a Token that exists to a Document node that exists, and each
    PREDICATE edge joins two Tokens that exist. *)
Theorem graph_edges_join_existing_nodes (env : Env) (w : World) :
  reachable env w -> wellFormed (neo w).
Proof.
  intros H. eapply wellFormed_steps; [by eapply reachable_walks|].
  split; cbn.
  - intros token d Hin. by apply not_elem_of_empty in Hin.
  - intros s p o [e He]. by rewrite lookup_empty in He.
Qed.

Lemma graph_edges_join_existing_nodes_witness :
  reachable envHybrid twoDocuments /\ wellFormed (neo twoDocuments).
Proof.
  assert (H : reachable envHybrid twoDocuments)
    by apply reachable_serve, reachable_init.
  split; [exact H|].
  exact (graph_edges_join_existing_nodes envHybrid twoDocuments H).
Defined.

(** ** Queries only read *)

Section ReadOnly.
Variable env : Env.

Lemma session_Run_QueryNodes_storesOf (q : Embedding) :
  keeps storesOf (session_Run env (QueryNodes q)).
Proof. intros w. unfold session_Run. by destruct (neo4jFault _ _). Qed.

Lemma SearchDocuments_storesOf (q : Embedding) (useGraph : bool) :
  keeps storesOf (SearchDocuments env q useGraph).
Proof.
  unfold SearchDocuments. apply keeps_bind.
  - by apply selectNearest_keeps.
  - intros [pgContent [e|]]; [apply keeps_ret|].
    destruct (negb useGraph || negb (neo4jDriver env)); [apply keeps_ret|].
    apply keeps_bind; [apply session_Run_QueryNodes_storesOf|].
    intros [result [e|]]; [apply keeps_ret|].
    cbn zeta. destruct (negb _); apply keeps_ret.
Qed.

End ReadOnly.

(** X8. Neither [SearchDocuments] nor the [Query] handler ever changes
    the table, its id sequence or the graph, whatever the request and
    whatever fails on the way. *)
Theorem Query_only_reads
    (env : Env) (useGraph : bool) (req : Binding string) (q : Embedding)
    (w : World) :
  storesOf (Query env useGraph req w).2 = storesOf w
  /\ storesOf (SearchDocuments env q useGraph w).2 = storesOf w.
Proof.
  split; [|apply SearchDocuments_storesOf].
  revert w. change (keeps storesOf (Query env useGraph req)).
  unfold Query. destruct req as [err|query]; [apply keeps_ret|].
  destruct (len (TrimSpace query) <? 3); [apply keeps_ret|].
  apply keeps_bind; [by apply GetEmbedding_keeps|].
  intros [embedding [e|]]; [apply keeps_ret|].
  apply keeps_bind; [apply SearchDocuments_storesOf|].
  intros [context [e|]]; [apply keeps_ret|].
  apply keeps_bind; [by apply GenerateResponse_keeps|].
  intros [response [e|]]; apply keeps_ret.
Qed.

(** ** The vector lookup *)

Lemma nearest_elem (env : Env) (q : Embedding) (rows : list Row) (r : Row) :
  nearest env q rows = Some r -> r ∈ rows.
Proof.
  revert r. induction rows as [|r0 rows IH]; intros r; cbn; [done|].
  destruct (nearest env q rows) as [r'|].
  - destruct (ranksBefore env q r' r0); intros [= <-].
    + apply elem_of_cons. right. by apply IH.
    + apply elem_of_cons. by left.
  - intros [= <-]. apply elem_of_cons. by left.
Qed.

Lemma nearest_None (env : Env) (q : Embedding) (rows : list Row) :
  nearest env q rows = None -> rows = [].
Proof.
  destruct rows as [|r0 rows]; cbn; [done|].
  destruct (nearest env q rows) as [r'|]; [|done].
  by destruct (ranksBefore env q r' r0).
Qed.

(** X9. On an empty table the search fails, whatever the flag, with the
    error of the no-rows scan and the empty context, after the one
    SELECT; the [Query] handler then replies 500 without calling the
    generative model. *)
Theorem search_on_empty_table
    (env : Env) (query : string) (q : Embedding) (useGraph : bool)
    (w0 w : World) :
  3 <= len (TrimSpace query) ->
  GetEmbedding env (TrimSpace query) w0 = ((q, None), w) ->
  documents w = [] ->
  pgFault env (now w) = None ->
  SearchDocuments env q useGraph w
  = ((""%string,
      Some "failed to search documents in PostgreSQL: no rows in result set"%string),
     emit (EvSelect q) w)
  /\ Query env useGraph (Bound query) w0
     = (JSON StatusInternalServerError
          (H_error "Failed to search documents: failed to search documents in PostgreSQL: no rows in result set"),
        emit (EvSelect q) w).
Proof.
  intros Hlen Hemb Hrows Hpg.
  assert (Hs : SearchDocuments env q useGraph w
               = ((""%string,
                   Some "failed to search documents in PostgreSQL: no rows in result set"%string),
                  emit (EvSelect q) w)).
  { unfold SearchDocuments, selectNearest. run. by rewrite Hpg, Hrows. }
  split; [exact Hs|]. unfold Query.
  destruct (Z.ltb_spec (len (TrimSpace query)) 3); [lia|].
  run. rewrite Hemb. cbn [fst snd]. run. by rewrite Hs.
Qed.

Lemma search_on_empty_table_witness :
  Query envHybrid true (Bound "which letter?"%string) emptyStore
  = (JSON 500
       (H_error "Failed to search documents: failed to search documents in PostgreSQL: no rows in result set"),
     emit (EvSelect unitEmbedding)
       (emit (EvEmbedContent "which letter?") emptyStore)).
Proof.
  refine (proj2 (search_on_empty_table envHybrid "which letter?" unitEmbedding
                   true emptyStore _ _ _ _ _)).
  - vm_compute. discriminate.
  - vm_compute. reflexivity.
  - reflexivity.
  - reflexivity.
Defined.

(** X10. When the search succeeds, its context begins with the content
    of a row of the table; what may follow is the separator and the
    content of a document that some token of the graph points to. *)
Theorem search_returns_stored_content
    (env : Env) (q : Embedding) (useGraph : bool) (w w' : World)
    (context : string) :
  SearchDocuments env q useGraph w = ((context, None), w') ->
  exists r : Row,
    r ∈ documents w
    /\ (context = row_content r
        \/ exists (token : string) (d : Z * string),
             (token, d) ∈ Contains (neo w)
             /\ useGraph = true /\ neo4jDriver env = true
             /\ d.2 <> ""%string
             /\ context
                = row_content r +:+ newline +:+ "Graph context: " +:+ d.2).
Proof.
  unfold SearchDocuments, selectNearest. run.
  destruct (pgFault env (now w)) as [e|]; cbn [fst snd]; [discriminate|].
  destruct (nearest env q (documents w)) as [r|] eqn:Hr; cbn [fst snd];
    [|discriminate].
  apply nearest_elem in Hr.
  destruct useGraph; cbn [negb orb];
    [|intros [= <- <-]; exists r; by split; [|left]].
  destruct (neo4jDriver env) eqn:Hdrv; cbn [negb];
    [|intros [= <- <-]; exists r; by split; [|left]].
  run. unfold session_Run.
  destruct (neo4jFault _ _) as [e|]; cbn [fst snd]; [discriminate|].
  cbn [neo emit records].
  destruct (head _) as [B|] eqn:HB; cbn [from_option id];
    [|intros [= <- <-]; exists r; by split; [|left]].
  destruct (String.eqb_spec B ""); cbn [negb];
    intros [= <- <-]; exists r; (split; [done|]); [by left|right].
  apply head_Some_elem_of, elem_of_take in HB as (i & HB & _).
  apply list_elem_of_lookup_2 in HB.
  apply list_elem_of_In, in_flat_map in HB as (token & _ & HB).
  apply list_elem_of_In in HB. unfold containedIn in HB.
  apply list_elem_of_fmap in HB as ([token' d] & -> & HB).
  apply list_elem_of_filter in HB as [Htok HB]. cbn in Htok. subst token'.
  apply elem_of_elements in HB. by exists token, d.
Qed.

Lemma search_returns_stored_content_witness :
  SearchDocuments envHybrid unitEmbedding true twoDocuments
  = (("alpha beta" +:+ newline +:+ "Graph context: " +:+ "gamma delta", None),
     emit (EvCypher (QueryNodes unitEmbedding))
       (emit (EvSelect unitEmbedding) twoDocuments))
  /\ exists r : Row,
       r ∈ documents twoDocuments
       /\ ("alpha beta" +:+ newline +:+ "Graph context: " +:+ "gamma delta"
           = row_content r
           \/ exists (token : string) (d : Z * string),
                (token, d) ∈ Contains (neo twoDocuments)
                /\ true = true /\ neo4jDriver envHybrid = true
                /\ d.2 <> ""%string
                /\ "alpha beta" +:+ newline +:+ "Graph context: " +:+ "gamma delta"
                   = row_content r +:+ newline +:+ "Graph context: " +:+ d.2).
Proof.
  assert (H : SearchDocuments envHybrid unitEmbedding true twoDocuments
              = (("alpha beta" +:+ newline +:+ "Graph context: " +:+ "gamma delta",
                  None),
                 emit (EvCypher (QueryNodes unitEmbedding))
                   (emit (EvSelect unitEmbedding) twoDocuments)))
    by (vm_compute; reflexivity).
  split; [exact H|]. exact (search_returns_stored_content _ _ _ _ _ _ H).
Defined.

(** ** The row comes first *)

Section Table.
Variable env : Env.

Lemma session_Run_tableOf (stmt : Cypher) : keeps tableOf (session_Run env stmt).
Proof. intros w. unfold session_Run. by destruct (neo4jFault _ _). Qed.

Lemma tokenLoop_tableOf (docID : Z) (tokens : list string) :
  keeps tableOf (tokenLoop env docID tokens).
Proof.
  induction tokens as [|token rest IH]; cbn; [apply keeps_ret|].
  apply keeps_bind; [|intros [e|]; [apply keeps_ret|apply IH]].
  unfold tokenBody. apply keeps_bind; [by apply GetEmbedding_keeps|].
  intros [tokenEmbedding [e|]]; [apply keeps_ret|].
  apply keeps_bind; [apply session_Run_tableOf|].
  intros [rs err]. apply keeps_ret.
Qed.

Lemma tripletLoop_tableOf (triplets : list Triplet) :
  keeps tableOf (tripletLoop env triplets).
Proof.
  induction triplets as [|triplet rest IH]; cbn; [apply keeps_ret|].
  apply keeps_bind; [|intros [e|]; [apply keeps_ret|apply IH]].
  unfold tripletBody.
  apply keeps_bind; [by apply GetEmbedding_keeps|]. intros [subjectEmb ?].
  apply keeps_bind; [by apply GetEmbedding_keeps|]. intros [predicateEmb ?].
  apply keeps_bind; [by apply GetEmbedding_keeps|]. intros [objectEmb ?].
  apply keeps_bind; [apply session_Run_tableOf|].
  intros [rs err]. apply keeps_ret.
Qed.

(** The graph part of an ingestion never touches the table. *)
Lemma AddTokenAndTriplets_tableOf (content : string) (embedding : Embedding)
    (docID : Z) :
  keeps tableOf (AddTokenAndTriplets env content embedding docID).
Proof.
  unfold AddTokenAndTriplets.
  apply keeps_bind; [by apply extractTokensAndTriplets_keeps|].
  intros [tokens triplets].
  apply keeps_bind; [apply session_Run_tableOf|].
  intros [rs [e|]]; [apply keeps_ret|].
  apply keeps_bind; [apply tokenLoop_tableOf|].
  intros [e|]; [apply keeps_ret|apply tripletLoop_tableOf].
Qed.

End Table.

(** X11. [AddDocument] writes the row before anything else.  When the
    INSERT fails, its error is returned and nothing more is done: no
    statement goes to the graph.  When it succeeds, exactly one row,
    with the next id, is appended to the table, and it stays there
    whatever the graph part then returns: nothing is rolled back. *)
Theorem AddDocument_row_first
    (env : Env) (content : string) (embedding : Embedding) (w : World) :
  match pgFault env (now w) with
  | Some e =>
      AddDocument env content embedding w
      = (Some e, emit (EvInsert content embedding) w)
  | None =>
      tableOf (AddDocument env content embedding w).2
      = (documents w ++ [mkRow (documents_id_seq w + 1) content embedding],
         documents_id_seq w + 1)
  end.
Proof.
  unfold AddDocument. run. unfold insertDocument.
  destruct (pgFault env (now w)) as [e|]; [done|]. cbn [fst snd].
  destruct (neo4jDriver env); [|done].
  by rewrite AddTokenAndTriplets_tableOf.
Qed.

(** ** The fallback tokens *)

Lemma Split_cons (s : string) : exists piece pieces, Split s = piece :: pieces.
Proof.
  induction s as [|c s (p & ps & IH)]; cbn; [by eexists _, _|].
  destruct (Ascii.eqb c " "); [by eexists _, _|]. rewrite IH. by eexists _, _.
Qed.

Lemma concat_cons_cons (sep x y : string) (l : list string) :
  String.concat sep (x :: y :: l)
  = (x +:+ sep +:+ String.concat sep (y :: l))%string.
Proof. reflexivity. Qed.

(** Joining the pieces with blanks gives the text back. *)
Lemma Split_concat (s : string) : String.concat " " (Split s) = s.
Proof.
  induction s as [|c s IH]; cbn [Split]; [done|].
  destruct (Split_cons s) as (p & ps & E). rewrite E in *.
  destruct (Ascii.eqb_spec c " ") as [->|Hc].
  - by rewrite concat_cons_cons, IH.
  - destruct ps as [|p' ps].
    + cbn in *. by rewrite <- IH.
    + rewrite concat_cons_cons in *. by rewrite <- IH.
Qed.

Lemma Split_no_blank (s : string) :
  Forall (fun piece => ~ In " "%char (list_ascii_of_string piece)) (Split s).
Proof.
  induction s as [|c s IH]; cbn [Split].
  - apply Forall_singleton. cbn. tauto.
  - destruct (Ascii.eqb_spec c " ") as [->|Hc].
    + apply Forall_cons. split; [cbn; tauto|done].
    + destruct (Split s) as [|p ps].
      * apply Forall_singleton. cbn. by intros [->|[]].
      * apply Forall_cons in IH as [Hp Hps]. apply Forall_cons.
        split; [|done]. cbn. intros [->|Hin]; [done|by apply Hp].
Qed.

Lemma elem_of_tail {A} (x : A) (l : list A) : x ∈ tail l -> x ∈ l.
Proof. destruct l; cbn; [done|]. intros H. apply elem_of_cons. by right. Qed.

Lemma Split_doubled_blank (a b : string) :
  ""%string ∈ tail (Split (a +:+ "  " +:+ b)).
Proof.
  induction a as [|c a IH].
  - cbn. apply list_elem_of_here.
  - change (String c a +:+ "  " +:+ b)%string
      with (String c (a +:+ "  " +:+ b)).
    cbn [Split]. destruct (Ascii.eqb c " ").
    + cbn [tail]. by apply elem_of_tail.
    + destruct (Split (a +:+ "  " +:+ b)) as [|p ps];
        [by apply elem_of_nil in IH|exact IH].
Qed.

(** X12. When the extractor cannot be run, or its output cannot be
    decoded, the tokens are the pieces of the content between single
    blanks and there are no triplets.  There is always at least one
    piece, no piece holds a blank, the pieces joined with blanks are the
    content again, and two blanks in a row give the empty string as a
    token. *)
Theorem fallback_tokens (env : Env) (content : string) (w : World) :
  extractTriplets env (now w) content = RunFailed
  \/ extractTriplets env (now w) content = BadOutput ->
  extractTokensAndTriplets env content w
  = ((Split content, []), emit (EvExtract content) w)
  /\ Split content <> []
  /\ String.concat " " (Split content) = content
  /\ Forall (fun token => ~ In " "%char (list_ascii_of_string token))
       (Split content)
  /\ (forall a b : string,
        content = a +:+ "  " +:+ b -> ""%string ∈ Split content).
Proof.
  intros Hfail. split; [|split; [|split; [|split]]].
  - unfold extractTokensAndTriplets. by destruct Hfail as [-> | ->].
  - by destruct (Split_cons content) as (p & ps & ->).
  - apply Split_concat.
  - apply Split_no_blank.
  - intros a b ->. apply elem_of_tail, Split_doubled_blank.
Qed.

Lemma fallback_tokens_witness :
  extractTokensAndTriplets envHybrid "alpha  beta" initWorld
  = ((["alpha"; ""; "beta"]%string, []), emit (EvExtract "alpha  beta") initWorld).
Proof.
  exact (proj1 (fallback_tokens envHybrid "alpha  beta" initWorld
                  (or_introl eq_refl))).
Defined.

(** ** What a successful graph ingestion leaves *)

Lemma mergePredicate_present (key : string * string * string) (e : Embedding)
    (edges : gmap (string * string * string) Embedding) :
  is_Some (mergePredicate key e edges !! key).
Proof.
  unfold mergePredicate. destruct (edges !! key) eqn:E; [by rewrite E|].
  rewrite lookup_insert_eq. by eexists.
Qed.

Lemma graphGrows_token (g g' : Graph) (token : string) :
  graphGrows g g' -> is_Some (Tokens g !! token) -> is_Some (Tokens g' !! token).
Proof.
  intros (_ & Ht & _) [e He]. exists e. by eapply lookup_weaken.
Qed.

Lemma graphGrows_predicate (g g' : Graph) (key : string * string * string) :
  graphGrows g g' ->
  is_Some (Predicates g !! key) -> is_Some (Predicates g' !! key).
Proof.
  intros (_ & _ & _ & Hp) [e He]. exists e. by eapply lookup_weaken.
Qed.

Section Success.
Variable env : Env.

Lemma tokenBody_walks (docID : Z) (token : string) :
  walks (tokenBody env docID token).
Proof.
  unfold tokenBody. apply walks_bind; [apply GetEmbedding_walks|].
  intros [tokenEmbedding [e|]]; [apply walks_ret|].
  apply walks_bind; [by apply session_Run_walks|].
  intros [rs err]. apply walks_ret.
Qed.

Lemma tripletBody_walks (triplet : Triplet) : walks (tripletBody env triplet).
Proof.
  unfold tripletBody.
  apply walks_bind; [apply GetEmbedding_walks|]. intros [subjectEmb ?].
  apply walks_bind; [apply GetEmbedding_walks|]. intros [predicateEmb ?].
  apply walks_bind; [apply GetEmbedding_walks|]. intros [objectEmb ?].
  apply walks_bind; [by apply session_Run_walks|].
  intros [rs err]. apply walks_ret.
Qed.

Lemma tokenBody_success (docID : Z) (content token : string) (w w' : World) :
  (docID, content) ∈ Documents (neo w) ->
  tokenBody env docID token w = (None, w') ->
  is_Some (Tokens (neo w') !! token)
  /\ (token, (docID, content)) ∈ Contains (neo w').
Proof.
  intros Hdoc. unfold tokenBody. run.
  pose proof (GetEmbedding_neo env token w) as Hneo.
  destruct (GetEmbedding env token w) as [[emb [e|]] w1]; cbn [fst snd] in *;
    [discriminate|]. run.
  destruct (session_Run env (MergeTokenContains token emb docID) w1)
    as [[rs [e|]] w2] eqn:E; cbn [fst snd]; [discriminate|].
  intros [= <-]. apply session_Run_ok in E as (-> & _ & _). rewrite Hneo.
  cbn [execCypher Tokens Contains]. split; [apply mergeToken_present|].
  apply elem_of_union. left. apply elem_of_map.
  exists (docID, content). split; [done|].
  unfold matchDocument. by apply elem_of_filter.
Qed.

Lemma tokenLoop_success (docID : Z) (content : string) (tokens : list string)
    (w w' : World) :
  (docID, content) ∈ Documents (neo w) ->
  tokenLoop env docID tokens w = (None, w') ->
  forall token, token ∈ tokens ->
    is_Some (Tokens (neo w') !! token)
    /\ (token, (docID, content)) ∈ Contains (neo w').
Proof.
  revert w. induction tokens as [|t rest IH]; intros w Hdoc; cbn [tokenLoop].
  - intros _ token Hin. by apply elem_of_nil in Hin.
  - run. pose proof (tokenBody_walks docID t w) as Hwalk.
    destruct (tokenBody env docID t w) as [[e|] w1] eqn:E; cbn [fst snd] in *;
      [discriminate|].
    intros Hrest token Hin.
    apply steps_grow in Hwalk as (_ & _ & Hg1 & _).
    pose proof (tokenLoop_walks env docID rest w1) as Hwalk2.
    rewrite Hrest in Hwalk2. apply steps_grow in Hwalk2 as (_ & _ & Hg2 & _).
    apply elem_of_cons in Hin as [->|Hin].
    + destruct (tokenBody_success docID content t w w1 Hdoc E) as [Ht Hc].
      split; [by eapply graphGrows_token|]. by apply Hg2.
    + eapply IH; [|exact Hrest|exact Hin]. by apply Hg1.
Qed.

Lemma tripletBody_success (triplet : Triplet) (w w' : World) :
  tripletBody env triplet w = (None, w') ->
  is_Some (Predicates (neo w')
             !! (Subject triplet, Predicate triplet, Object triplet))
  /\ is_Some (Tokens (neo w') !! Subject triplet)
  /\ is_Some (Tokens (neo w') !! Object triplet).
Proof.
  unfold tripletBody. run.
  pose proof (GetEmbedding_neo env (Subject triplet) w) as H1.
  destruct (GetEmbedding env (Subject triplet) w) as [[se es] w1].
  cbn [fst snd] in *. run.
  pose proof (GetEmbedding_neo env (Predicate triplet) w1) as H2.
  destruct (GetEmbedding env (Predicate triplet) w1) as [[pe ep] w2].
  cbn [fst snd] in *. run.
  pose proof (GetEmbedding_neo env (Object triplet) w2) as H3.
  destruct (GetEmbedding env (Object triplet) w2) as [[oe eo] w3].
  cbn [fst snd] in *. run.
  destruct (session_Run env _ w3) as [[rs [e|]] w4] eqn:E; cbn [fst snd];
    [discriminate|].
  intros [= <-]. apply session_Run_ok in E as (-> & _ & _).
  cbn [execCypher Tokens Predicates]. split; [apply mergePredicate_present|].
  split; [apply mergeToken_still_present|]; apply mergeToken_present.
Qed.

Lemma tripletLoop_success (triplets : list Triplet) (w w' : World) :
  tripletLoop env triplets w = (None, w') ->
  forall triplet, triplet ∈ triplets ->
    is_Some (Predicates (neo w')
               !! (Subject triplet, Predicate triplet, Object triplet))
    /\ is_Some (Tokens (neo w') !! Subject triplet)
    /\ is_Some (Tokens (neo w') !! Object triplet).
Proof.
  revert w. induction triplets as [|t rest IH]; intros w; cbn [tripletLoop].
  - intros _ triplet Hin. by apply elem_of_nil in Hin.
  - run. destruct (tripletBody env t w) as [[e|] w1] eqn:E; cbn [fst snd];
      [discriminate|].
    intros Hrest triplet Hin.
    pose proof (tripletLoop_walks env rest w1) as Hwalk.
    rewrite Hrest in Hwalk. apply steps_grow in Hwalk as (_ & _ & Hg & _).
    apply elem_of_cons in Hin as [->|Hin]; [|by eapply IH].
    destruct (tripletBody_success t w w1 E) as (Hp & Hs & Ho).
    split; [by eapply graphGrows_predicate|].
    split; by eapply graphGrows_token.
Qed.

End Success.

(** X13. When [AddTokenAndTriplets] returns without an error, the graph
    holds the Document node of the document, every token that was
    extracted, each joined to that node by a CONTAINS edge, and for
    every triplet its PREDICATE edge and the two Tokens it joins. *)
Theorem graph_ingestion_success
    (env : Env) (content : string) (embedding : Embedding) (docID : Z)
    (tokens : list string) (triplets : list Triplet) (w w0 w' : World) :
  extractTokensAndTriplets env content w = ((tokens, triplets), w0) ->
  AddTokenAndTriplets env content embedding docID w = (None, w') ->
  (docID, content) ∈ Documents (neo w')
  /\ (forall token, token ∈ tokens ->
        is_Some (Tokens (neo w') !! token)
        /\ (token, (docID, content)) ∈ Contains (neo w'))
  /\ (forall triplet, triplet ∈ triplets ->
        is_Some (Predicates (neo w')
                   !! (Subject triplet, Predicate triplet, Object triplet))
        /\ is_Some (Tokens (neo w') !! Subject triplet)
        /\ is_Some (Tokens (neo w') !! Object triplet)).
Proof.
  intros Hext. unfold AddTokenAndTriplets. run. rewrite Hext. cbn [fst snd]. run.
  destruct (session_Run env (MergeDocument docID content) w0)
    as [[rs [e|]] w1] eqn:Edoc; cbn [fst snd]; [discriminate|]. run.
  apply session_Run_ok in Edoc as (Hneo1 & _ & _).
  assert (Hdoc1 : (docID, content) ∈ Documents (neo w1)).
  { rewrite Hneo1. cbn. apply elem_of_union. left. by apply elem_of_singleton. }
  pose proof (tokenLoop_walks env docID tokens w1) as Hwalk2.
  destruct (tokenLoop env docID tokens w1) as [[e|] w2] eqn:Etok;
    cbn [fst snd] in *; [discriminate|].
  intros Htrip.
  pose proof (tripletLoop_walks env triplets w2) as Hwalk3.
  rewrite Htrip in Hwalk3. cbn [snd] in Hwalk3.
  apply steps_grow in Hwalk2 as (_ & _ & Hg2 & _).
  apply steps_grow in Hwalk3 as (_ & _ & Hg3 & _).
  split; [|split].
  - apply Hg3, Hg2, Hdoc1.
  - intros token Hin.
    destruct (tokenLoop_success env docID content tokens w1 w2 Hdoc1 Etok token Hin)
      as [Ht Hc].
    split; [by eapply graphGrows_token|]. by apply Hg3.
  - by apply (tripletLoop_success env triplets w2 w').
Qed.

Lemma graph_ingestion_success_witness :
  (1, "alpha beta"%string)
    ∈ Documents (neo (AddTokenAndTriplets (envEmbedFails "none") "alpha beta"
                        unitEmbedding 1
                        (inserted "alpha beta" unitEmbedding initWorld)).2)
  /\ is_Some (Predicates
               (neo (AddTokenAndTriplets (envEmbedFails "none") "alpha beta"
                       unitEmbedding 1
                       (inserted "alpha beta" unitEmbedding initWorld)).2)
               !! ("Socrates"%string, "teaches"%string, "Plato"%string)).
Proof.
  destruct (graph_ingestion_success (envEmbedFails "none") "alpha beta"
              unitEmbedding 1 ["alpha"; "beta"]%string
              [mkTriplet "Socrates" "teaches" "Plato"]
              (inserted "alpha beta" unitEmbedding initWorld) _
              (AddTokenAndTriplets (envEmbedFails "none") "alpha beta"
                 unitEmbedding 1
                 (inserted "alpha beta" unitEmbedding initWorld)).2
              ltac:(vm_compute; reflexivity) ltac:(vm_compute; reflexivity))
    as (Hdoc & _ & Htr).
  split; [exact Hdoc|].
  exact (proj1 (Htr (mkTriplet "Socrates" "teaches" "Plato")
                  ltac:(apply list_elem_of_here))).
Defined.

(** ** The order of the statements *)

Section Order.
Variable env : Env.

Lemma GetEmbedding_graphLog (text : string) :
  keeps graphLog (GetEmbedding env text).
Proof.
  apply GetEmbedding_keeps. intros w. by rewrite graphLog_emit, app_nil_r.
Qed.

Lemma session_Run_graphLog (stmt : Cypher) (w : World) :
  graphLog (session_Run env stmt w).2 = graphLog w ++ [stmt].
Proof.
  destruct (session_Run_cases env stmt w) as [-> | ->]; [apply graphLog_emit|].
  unfold graphLog, executed. cbn [trace]. apply cypherCalls_snoc.
Qed.

Lemma tokenLoop_graphLog (docID : Z) (tokens : list string) (w w' : World) :
  tokenLoop env docID tokens w = (None, w') ->
  shape <$> graphLog w'
  = (shape <$> graphLog w)
    ++ ((fun token => MergeTokenContains token [] docID) <$> tokens).
Proof.
  revert w. induction tokens as [|t rest IH]; intros w; cbn [tokenLoop].
  - intros [= <-]. by rewrite app_nil_r.
  - run. unfold tokenBody at 1 2. run.
    pose proof (GetEmbedding_graphLog t w) as Hlog.
    destruct (GetEmbedding env t w) as [[emb [e|]] w1]; cbn [fst snd] in *;
      [discriminate|]. run.
    pose proof (session_Run_graphLog (MergeTokenContains t emb docID) w1) as Hrun.
    destruct (session_Run env (MergeTokenContains t emb docID) w1)
      as [[rs [e|]] w2]; cbn [fst snd] in *; [discriminate|].
    run. intros Hrest.
    rewrite (IH _ Hrest), Hrun, Hlog, fmap_app, <- app_assoc.
    reflexivity.
Qed.

Lemma tripletLoop_graphLog (triplets : list Triplet) (w w' : World) :
  tripletLoop env triplets w = (None, w') ->
  shape <$> graphLog w'
  = (shape <$> graphLog w)
    ++ ((fun triplet =>
           MergeTriplet (Subject triplet) [] (Predicate triplet) []
             (Object triplet) []) <$> triplets).
Proof.
  revert w. induction triplets as [|t rest IH]; intros w; cbn [tripletLoop].
  - intros [= <-]. by rewrite app_nil_r.
  - run. unfold tripletBody at 1 2. run.
    pose proof (GetEmbedding_graphLog (Subject t) w) as H1.
    destruct (GetEmbedding env (Subject t) w) as [[se es] w1].
    cbn [fst snd] in *. run.
    pose proof (GetEmbedding_graphLog (Predicate t) w1) as H2.
    destruct (GetEmbedding env (Predicate t) w1) as [[pe ep] w2].
    cbn [fst snd] in *. run.
    pose proof (GetEmbedding_graphLog (Object t) w2) as H3.
    destruct (GetEmbedding env (Object t) w2) as [[oe eo] w3].
    cbn [fst snd] in *. run.
    pose proof (session_Run_graphLog
                  (MergeTriplet (Subject t) se (Predicate t) pe (Object t) oe) w3)
      as Hrun.
    destruct (session_Run env _ w3) as [[rs [e|]] w4]; cbn [fst snd] in *;
      [discriminate|].
    run. intros Hrest.
    rewrite (IH _ Hrest), Hrun, H3, H2, H1, fmap_app, <- app_assoc.
    reflexivity.
Qed.

End Order.

(** X14. When [AddTokenAndTriplets] returns without an error, the
    statements it sent to the graph store are, in this order: the merge
    of the Document node, one merge per token in the order of
    extraction, one merge per triplet in the order of extraction. *)
Theorem graph_statements_in_order
    (env : Env) (content : string) (embedding : Embedding) (docID : Z)
    (tokens : list string) (triplets : list Triplet) (w w0 w' : World) :
  extractTokensAndTriplets env content w = ((tokens, triplets), w0) ->
  AddTokenAndTriplets env content embedding docID w = (None, w') ->
  shape <$> graphLog w'
  = (shape <$> graphLog w)
    ++ MergeDocument docID content
       :: ((fun token => MergeTokenContains token [] docID) <$> tokens)
       ++ ((fun triplet =>
              MergeTriplet (Subject triplet) [] (Predicate triplet) []
                (Object triplet) []) <$> triplets).
Proof.
  intros Hext. unfold AddTokenAndTriplets. run. rewrite Hext. cbn [fst snd]. run.
  assert (Hlog0 : graphLog w0 = graphLog w).
  { pose proof (extractTokensAndTriplets_emits env content w) as H.
    rewrite Hext in H. cbn in H. subst w0. by rewrite graphLog_emit, app_nil_r. }
  pose proof (session_Run_graphLog env (MergeDocument docID content) w0) as Hdoc.
  destruct (session_Run env (MergeDocument docID content) w0)
    as [[rs [e|]] w1]; cbn [fst snd] in *; [discriminate|]. run.
  destruct (tokenLoop env docID tokens w1) as [[e|] w2] eqn:Etok;
    cbn [fst snd]; [discriminate|].
  intros Htrip.
  rewrite (tripletLoop_graphLog env _ _ _ Htrip),
    (tokenLoop_graphLog env _ _ _ _ Etok), Hdoc, Hlog0, fmap_app.
  cbn [fmap list_fmap shape]. by rewrite <- !app_assoc.
Qed.

Lemma graph_statements_in_order_witness :
  shape <$>
    graphLog (AddTokenAndTriplets (envEmbedFails "none") "alpha beta"
                unitEmbedding 1
                (inserted "alpha beta" unitEmbedding initWorld)).2
  = [MergeDocument 1 "alpha beta";
     MergeTokenContains "alpha" [] 1;
     MergeTokenContains "beta" [] 1;
     MergeTriplet "Socrates" [] "teaches" [] "Plato" []].
Proof.
  exact (graph_statements_in_order (envEmbedFails "none") "alpha beta"
           unitEmbedding 1 ["alpha"; "beta"]%string
           [mkTriplet "Socrates" "teaches" "Plato"]
           (inserted "alpha beta" unitEmbedding initWorld) _
           (AddTokenAndTriplets (envEmbedFails "none") "alpha beta"
              unitEmbedding 1
              (inserted "alpha beta" unitEmbedding initWorld)).2
           ltac:(vm_compute; reflexivity) ltac:(vm_compute; reflexivity)).
Defined.

(** ** The rows of a batch *)

Lemma AddDocument_documents (env : Env) (content : string)
    (embedding : Embedding) (w : World) :
  documents (AddDocument env content embedding w).2
  = documents w
    ++ match pgFault env (now w) with
       | Some _ => []
       | None => [mkRow (documents_id_seq w + 1) content embedding]
       end.
Proof.
  unfold AddDocument. run. unfold insertDocument.
  destruct (pgFault env (now w)) as [e|]; cbn [fst snd].
  - cbn. by rewrite app_nil_r.
  - destruct (neo4jDriver env); [|done].
    pose proof (AddTokenAndTriplets_tableOf env content embedding
                  (documents_id_seq w + 1) (inserted content embedding w)) as H.
    unfold tableOf, inserted in H. by injection H.
Qed.

Lemma ingest_documents (env : Env) (text : string) (w : World) :
  exists new : list Row,
    documents (ingest env text w).2 = documents w ++ new
    /\ Forall (fun r => row_content r = text /\ row_embedding r <> []) new.
Proof.
  unfold ingest. run.
  pose proof (GetEmbedding_keeps env documents text (fun _ => eq_refl) w) as Hdocs.
  destruct (GetEmbedding env text w) as [[embedding [e|]] w1] eqn:E;
    cbn [fst snd] in *.
  - exists []. by rewrite app_nil_r.
  - apply GetEmbedding_ok_inv in E as (Hemb & _).
    rewrite AddDocument_documents, Hdocs.
    eexists. split; [done|]. destruct (pgFault _ _); by repeat constructor.
Qed.

Lemma runGoroutines_documents (env : Env) (launched errors : list string)
    (w : World) :
  exists new : list Row,
    documents (runGoroutines env launched errors w).2 = documents w ++ new
    /\ Forall (fun r => row_content r ∈ launched /\ row_embedding r <> []) new.
Proof.
  revert errors w. induction launched as [|text rest IH]; intros errors w;
    cbn [runGoroutines].
  - exists []. by rewrite app_nil_r.
  - run. destruct (ingest_documents env text w) as (new1 & H1 & HF1).
    destruct (ingest env text w) as [err w1]. cbn [fst snd] in *.
    destruct (IH (match err with Some e => errors ++ [e] | None => errors end) w1)
      as (new2 & H2 & HF2).
    exists (new1 ++ new2).
    split; [etrans; [exact H2|]; by rewrite H1, app_assoc|].
    apply Forall_app. split.
    + eapply Forall_impl; [exact HF1|]. intros r [-> ?].
      split; [apply list_elem_of_here|done].
    + eapply Forall_impl; [exact HF2|]. intros r [? ?].
      split; [by apply list_elem_of_further|done].
Qed.

(** The goroutines [launchLoop] launches are trimmed documents of the
    batch of at least 5 bytes, whether the loop ends or returns early. *)
Lemma launchLoop_launched (docs launched launched' : list string) :
  launchLoop docs launched = inl launched'
  \/ launchLoop docs launched = inr launched' ->
  exists more : list string,
    launched' = launched ++ more
    /\ Forall (fun t => 5 <= len t /\ t ∈ TrimSpace <$> docs) more.
Proof.
  revert launched. induction docs as [|d docs IH]; intros launched;
    cbn [launchLoop].
  - intros [[= <-]|[=]]. exists []. by rewrite app_nil_r.
  - destruct (Z.ltb_spec (len (TrimSpace d)) 5).
    + intros [[=]|[= <-]]. exists []. by rewrite app_nil_r.
    + intros H'. apply IH in H' as (more & -> & HF).
      exists (TrimSpace d :: more). rewrite <- app_assoc. split; [done|].
      apply Forall_cons. split.
      * split; [lia|]. rewrite fmap_cons. apply list_elem_of_here.
      * eapply Forall_impl; [exact HF|]. intros t [? ?].
        split; [done|]. rewrite fmap_cons. by apply list_elem_of_further.
Qed.

(** X15. Whatever a batch sent to [AddDocuments] comes to, the rows it
    adds to the table are added at its end, and each of them holds the
    trimmed text of a document of the batch, of at least 5 bytes, and a
    non-empty embedding: no too-short text gets in through a batch,
    also when the batch is refused half-way. *)
Theorem batch_rows_are_validated (env : Env) (docs : list string) (w : World) :
  exists new : list Row,
    documents (serve env (POST_add (Bound docs)) w).2 = documents w ++ new
    /\ Forall (fun r => 5 <= len (row_content r)
                         /\ row_content r ∈ TrimSpace <$> docs
                         /\ row_embedding r <> []) new.
Proof.
  rewrite serve_add_run. cbn [snd]. unfold AddDocuments.
  destruct docs as [|d docs]; [exists []; cbn; by rewrite app_nil_r|].
  cbn [length Nat.eqb].
  destruct (launchLoop (d :: docs) []) as [launched|launched] eqn:E.
  - destruct (launchLoop_launched (d :: docs) [] launched (or_introl E))
      as (more & -> & HF).
    rewrite run_bind. cbn [app].
    destruct (runGoroutines_documents env more [] w) as (new & Hnew & HFnew).
    exists new. split.
    + destruct (0 <? _)%nat; cbn [fst snd runGoroutines]; by rewrite run_ret.
    + eapply Forall_impl; [exact HFnew|]. intros r [Hin ?].
      rewrite Forall_forall in HF. destruct (HF _ Hin). done.
  - destruct (launchLoop_launched (d :: docs) [] launched (or_intror E))
      as (more & -> & HF).
    rewrite run_ret. cbn [fst snd app].
    destruct (runGoroutines_documents env more [] w) as (new & Hnew & HFnew).
    exists new. split; [done|].
    eapply Forall_impl; [exact HFnew|]. intros r [Hin ?].
    rewrite Forall_forall in HF. destruct (HF _ Hin). done.
Qed.

(** ** A batch when Gemini and PostgreSQL answer *)

Lemma ingest_up (env : Env) (text : string) (w : World) :
  geminiUp env -> postgresUp env ->
  row_content <$> documents (ingest env text w).2
  = (row_content <$> documents w) ++ [text].
Proof.
  intros [Hkey Hup] Hpg. unfold ingest. run.
  destruct (Hup (now w) text) as (st & rb & vs & Hresp & Hvs).
  assert (Hget : GetEmbedding env text w
                 = ((vs, None), emit (EvEmbedContent text) w)).
  { unfold GetEmbedding.
    destruct (String.eqb_spec (GEMINI_API_KEY env) ""); [done|].
    rewrite Hresp. cbn. by destruct vs. }
  rewrite Hget. cbn [fst snd]. rewrite AddDocument_documents, Hpg.
  by rewrite fmap_app.
Qed.

Lemma runGoroutines_up (env : Env) (launched errors : list string) (w : World) :
  geminiUp env -> postgresUp env ->
  row_content <$> documents (runGoroutines env launched errors w).2
  = (row_content <$> documents w) ++ launched.
Proof.
  intros Hgem Hpg. revert errors w.
  induction launched as [|text rest IH]; intros errors w; cbn [runGoroutines].
  - by rewrite app_nil_r.
  - run. rewrite IH, ingest_up by done. by rewrite <- app_assoc.
Qed.

(** X16. As long as every embedding request of the batch is answered
    with a vector and no INSERT fails, a batch that passes validation
    adds one row for each of its documents, holding the trimmed texts,
    in whatever order the goroutines got to insert them; this holds
    whatever the graph store does, so also when the reply is a
    failure. *)
Theorem batch_stores_every_document (env : Env) (docs : list string) (w : World) :
  geminiUp env ->
  postgresUp env ->
  Forall (fun t => 5 <= len (TrimSpace t)) docs ->
  exists new : list Row,
    documents (AddDocuments env (Bound docs) w).2 = documents w ++ new
    /\ Permutation (row_content <$> new) (TrimSpace <$> docs).
Proof.
  intros Hgem Hpg Hvalid.
  assert (Hall : row_content <$> documents (AddDocuments env (Bound docs) w).2
                 = (row_content <$> documents w) ++ (TrimSpace <$> docs)).
  { unfold AddDocuments.
    destruct docs as [|d docs]; [cbn; by rewrite app_nil_r|].
    cbn [length Nat.eqb]. rewrite launchLoop_valid by done. cbn [app].
    rewrite run_bind.
    pose proof (runGoroutines_up env (TrimSpace <$> d :: docs) [] w Hgem Hpg) as H.
    destruct (0 <? _)%nat; by rewrite run_ret. }
  assert (Hnew : exists new : list Row,
             documents (AddDocuments env (Bound docs) w).2 = documents w ++ new).
  { unfold AddDocuments. destruct docs as [|d docs]; [exists []; cbn; by rewrite app_nil_r|].
    cbn [length Nat.eqb]. rewrite launchLoop_valid by done. cbn [app].
    rewrite run_bind.
    destruct (runGoroutines_documents env (TrimSpace <$> d :: docs) [] w)
      as (new & Hnew & _).
    exists new. destruct (0 <? _)%nat; by rewrite run_ret. }
  destruct Hnew as (new & Hnew). exists new. split; [exact Hnew|].
  rewrite Hnew, fmap_app in Hall. by apply app_inv_head in Hall as ->.
Qed.

Lemma batch_stores_every_document_witness :
  code (AddDocuments envGraphDown (Bound ["hello world"; " second doc "]%string)
          initWorld).1.1
  = StatusInternalServerError
  /\ exists new : list Row,
       documents (AddDocuments envGraphDown
                    (Bound ["hello world"; " second doc "]%string) initWorld).2
       = documents initWorld ++ new
       /\ Permutation (row_content <$> new)
            (TrimSpace <$> ["hello world"; " second doc "]%string).
Proof.
  split; [vm_compute; reflexivity|].
  apply (batch_stores_every_document envGraphDown
           ["hello world"; " second doc "]%string initWorld).
  - split; [discriminate|]. intros t text.
    exists "200 OK"%string, "{}"%string, unitEmbedding. split; [done|].
    discriminate.
  - by intros t.
  - repeat constructor; vm_compute; discriminate.
Defined.

(** ** What a success reply means *)

Lemma AddDocument_None (env : Env) (content : string) (embedding : Embedding)
    (w w' : World) :
  AddDocument env content embedding w = (None, w') ->
  pgFault env (now w) = None
  /\ tableOf w'
     = (documents w ++ [mkRow (documents_id_seq w + 1) content embedding],
        documents_id_seq w + 1).
Proof.
  unfold AddDocument. run. unfold insertDocument.
  destruct (pgFault env (now w)) as [e|]; cbn [fst snd]; [discriminate|].
  intros H. split; [done|]. destruct (neo4jDriver env).
  - pose proof (AddTokenAndTriplets_tableOf env content embedding
                  (documents_id_seq w + 1) (inserted content embedding w)) as Hk.
    fold (inserted content embedding w) in H. by rewrite H in Hk.
  - by injection H as <-.
Qed.

Lemma ingest_None (env : Env) (text : string) (w w' : World) :
  ingest env text w = (None, w') ->
  row_content <$> documents w' = (row_content <$> documents w) ++ [text].
Proof.
  unfold ingest. run.
  pose proof (GetEmbedding_keeps env tableOf text (fun _ => eq_refl) w) as Hk.
  destruct (GetEmbedding env text w) as [[embedding [e|]] w1];
    cbn [fst snd] in *; [discriminate|].
  intros H. apply AddDocument_None in H as [_ H].
  unfold tableOf in *. injection Hk as Hd Hs. injection H as -> _.
  by rewrite Hd, fmap_app.
Qed.

Lemma goroutineOutcomes_all_None (env : Env) (launched : list string) (w : World) :
  failures (goroutineOutcomes env launched w).1 = [] ->
  row_content <$> documents (goroutineOutcomes env launched w).2
  = (row_content <$> documents w) ++ launched.
Proof.
  revert w. induction launched as [|text rest IH]; intros w;
    cbn [goroutineOutcomes].
  - intros _. by rewrite app_nil_r.
  - run. destruct (ingest env text w) as [[e|] w1] eqn:E; cbn [fst snd];
      [discriminate|].
    intros H. rewrite (IH w1 H), (ingest_None env text w w1 E).
    by rewrite <- app_assoc.
Qed.

(** X17. When [AddDocuments] replies 200, every document of the batch
    was stored: the table got one new row per document, holding the
    trimmed texts, in whatever order the goroutines got to insert them,
    and no goroutine is left running. *)
Theorem batch_success_means_all_stored
    (env : Env) (docs : list string) (w w' : World) (resp : Response)
    (detached : list string) :
  AddDocuments env (Bound docs) w = ((resp, detached), w') ->
  code resp = StatusOK ->
  detached = []
  /\ resp = JSON StatusOK (H_message "Documents added successfully")
  /\ Forall (fun t => 5 <= len (TrimSpace t)) docs
  /\ exists new : list Row,
       documents w' = documents w ++ new
       /\ Permutation (row_content <$> new) (TrimSpace <$> docs).
Proof.
  unfold AddDocuments. destruct docs as [|d docs]; [by intros [= <- <- <-]|].
  cbn [length Nat.eqb].
  destruct (launchLoop (d :: docs) []) as [launched|launched] eqn:E;
    [|by intros [= <- <- <-]].
  apply launchLoop_inl in E as [-> Hvalid]. cbn [app].
  rewrite run_bind.
  destruct (runGoroutines_documents env (TrimSpace <$> d :: docs) [] w)
    as (new & Hnew & _).
  rewrite runGoroutines_outcomes in *. cbn [fst snd app] in *.
  destruct (failures _) as [|e errors] eqn:Hf; cbn [length Nat.ltb Nat.leb];
    rewrite run_ret; [|by intros [= <- <- <-]].
  intros [= <- <- <-] _.
  split; [done|]. split; [done|]. split; [done|].
  exists new. split; [exact Hnew|].
  pose proof (goroutineOutcomes_all_None env (TrimSpace <$> d :: docs) w Hf)
    as Hall.
  rewrite Hnew, fmap_app in Hall. by apply app_inv_head in Hall as ->.
Qed.

Lemma batch_success_means_all_stored_witness :
  AddDocuments envVectorOnly (Bound [" hello world "%string]) initWorld
  = ((JSON 200 (H_message "Documents added successfully"), []), oneDocument)
  /\ exists new : list Row,
       documents oneDocument = documents initWorld ++ new
       /\ Permutation (row_content <$> new) ["hello world"%string].
Proof.
  assert (H : AddDocuments envVectorOnly (Bound [" hello world "%string])
                initWorld
              = ((JSON 200 (H_message "Documents added successfully"), []),
                 oneDocument))
    by (vm_compute; reflexivity).
  split; [exact H|].
  exact (proj2 (proj2 (proj2
           (batch_success_means_all_stored _ _ _ _ _ _ H eq_refl)))).
Defined.

(** X18. When [UploadDocumentGin] replies 200, the table got exactly one
    new row, with the next id, holding the content of the file byte for
    byte and a non-empty embedding. *)
Theorem upload_success_stores_raw_content
    (env : Env) (content : string) (w w' : World) (resp : Response) :
  UploadDocumentGin env (FileContent content) w = (resp, w') ->
  code resp = StatusOK ->
  exists embedding : Embedding,
    embedding <> []
    /\ tableOf w'
       = (documents w ++ [mkRow (documents_id_seq w + 1) content embedding],
          documents_id_seq w + 1).
Proof.
  unfold UploadDocumentGin. run.
  pose proof (GetEmbedding_keeps env tableOf content (fun _ => eq_refl) w) as Hk.
  destruct (GetEmbedding env content w) as [[embedding [e|]] w1] eqn:E;
    cbn [fst snd] in *; [by intros [= <- <-]|]. run.
  destruct (AddDocument env content embedding w1) as [[e|] w2] eqn:Eadd;
    cbn [fst snd]; [by intros [= <- <-]|].
  rewrite run_ret. intros [= <- <-] _.
  apply GetEmbedding_ok_inv in E as (Hemb & _).
  apply AddDocument_None in Eadd as [_ Htab].
  exists embedding. split; [done|].
  unfold tableOf in *. injection Hk as Hd Hs. by rewrite Htab, Hd, Hs.
Qed.

Lemma upload_success_stores_raw_content_witness :
  exists embedding : Embedding,
    embedding <> []
    /\ tableOf (UploadDocumentGin envHybrid (FileContent " raw text ")
                 oneDocument).2
       = (documents oneDocument ++ [mkRow 2 " raw text " embedding], 2).
Proof.
  exact (upload_success_stores_raw_content envHybrid " raw text " oneDocument
           (UploadDocumentGin envHybrid (FileContent " raw text ") oneDocument).2
           (JSON 200 (H_message "Document uploaded successfully"))
           ltac:(vm_compute; reflexivity) eq_refl).
Defined.

(** X19. When [Query] replies 200: the trimmed query had at least 3
    bytes, its embedding was computed, the search returned a context
    without an error, and Gemini answered the prompt built from the
    trimmed query and that context with a 200 whose first candidate has
    a first part; the reply carries the text of that part. *)
Theorem Query_success
    (env : Env) (useGraph : bool) (query : string) (w w' : World)
    (resp : Response) :
  Query env useGraph (Bound query) w = (resp, w') ->
  code resp = StatusOK ->
  3 <= len (TrimSpace query)
  /\ exists (q : Embedding) (context text : string) (w1 w2 : World),
       GetEmbedding env (TrimSpace query) w = ((q, None), w1)
       /\ SearchDocuments env q useGraph w1 = ((context, None), w2)
       /\ GenerateResponse env (TrimSpace query) context w2 = ((text, None), w')
       /\ resp = JSON StatusOK (H_response text)
       /\ exists (Status respBody : string) (parts : list string)
                 (candidates : list (list string)),
            generateContent env (now w2) (prompt_of (TrimSpace query) context)
            = Responded 200 Status respBody (inl ((text :: parts) :: candidates)).
Proof.
  unfold Query.
  destruct (Z.ltb_spec (len (TrimSpace query)) 3); [by intros [= <- <-]|].
  run. destruct (GetEmbedding env (TrimSpace query) w) as [[q [e|]] w1] eqn:E1;
    cbn [fst snd]; [by intros [= <- <-]|]. run.
  destruct (SearchDocuments env q useGraph w1) as [[context [e|]] w2] eqn:E2;
    cbn [fst snd]; [by intros [= <- <-]|]. run.
  destruct (GenerateResponse env (TrimSpace query) context w2)
    as [[text [e|]] w3] eqn:Egen; cbn [fst snd]; [by intros [= <- <-]|].
  rewrite run_ret. intros [= <- <-] _. split; [lia|].
  exists q, context, text, w1, w2. repeat split; try done.
  by apply GenerateResponse_ok_iff in Egen as (_ & _ & H').
Qed.

Lemma Query_success_witness :
  Query envHybrid true (Bound " which letter? "%string) twoDocuments
  = (JSON 200 (H_response "answer"),
     (Query envHybrid true (Bound " which letter? "%string) twoDocuments).2)
  /\ 3 <= len (TrimSpace " which letter? ").
Proof.
  assert (H : Query envHybrid true (Bound " which letter? "%string) twoDocuments
              = (JSON 200 (H_response "answer"),
                 (Query envHybrid true (Bound " which letter? "%string)
                    twoDocuments).2))
    by (vm_compute; reflexivity).
  split; [exact H|]. exact (proj1 (Query_success _ _ _ _ _ _ H eq_refl)).
Defined.
